(** * The HTTP request router of [http/router.ts]

    A shallow embedding of the [Router] class and of the helper functions of
    its module, together with the properties of registration ([handle]) and
    of dispatch ([handler]) that the specification states.

    Conventions of the embedding:
    - a JavaScript string is a [string], one character per code unit, so
      that [String.length] is the [length] property;
    - the private fields of a [Router] are the fields of a record, and the
      methods are computations of a state-and-exception monad over that
      record: a [throw] leaves the fields as they were when it was raised;
    - a [Handler] is a function from the request and the connection
      information to its response (for a handler that returns a promise,
      the response it settles to). *)

From Stdlib Require Import ZArith String Ascii List Bool Sorted Lia.
From stdpp Require Import base option list sorting strings gmap.

Local Open Scope string_scope.
Local Open Scope list_scope.
Local Open Scope Z_scope.

(** ** The JavaScript built-ins the module calls *)

Module Js.

(** [String.prototype.at]: a negative index counts from the end, and an
    index outside the string gives [undefined]. *)
Definition at_ (s : string) (index : Z) : option ascii :=
  let len := Z.of_nat (String.length s) in
  let k := if 0 <=? index then index else len + index in
  if (k <? 0) || (len <=? k) then None else String.get (Z.to_nat k) s.

(** [s[i]] for an index that is a natural number. *)
Definition nth_char (s : string) (i : nat) : option ascii := String.get i s.

(** [String.prototype.startsWith]. *)
Definition startsWith (s searchString : string) : bool :=
  String.prefix searchString s.

(** [Array.prototype.findIndex]: the index of the first element that
    satisfies the predicate, and [-1] when there is none. *)
Fixpoint findIndex_from {A} (p : A → bool) (l : list A) (i : Z) : Z :=
  match l with
  | [] => -1
  | x :: l' => if p x then i else findIndex_from p l' (i + 1)
  end.

Definition findIndex {A} (p : A → bool) (l : list A) : Z :=
  findIndex_from p l 0.

(** [Array.prototype.splice(start, 0, item)]: a negative [start] is
    relative to the end of the array and is clamped at [0], one beyond
    the length is clamped at the length. *)
Definition splice_insert {A} (l : list A) (start : Z) (item : A) : list A :=
  let len := Z.of_nat (length l) in
  let actualStart :=
    if start <? 0 then Z.max (len + start) 0 else Z.min start len in
  take (Z.to_nat actualStart) l ++ item :: drop (Z.to_nat actualStart) l.

(** [Map.prototype.has]. *)
Definition has {V} (m : gmap string V) (key : string) : bool :=
  bool_decide (is_Some (m !! key)).

End Js.

(** ** Requests, responses and URLs *)

(** A [Headers] object: the header list, names in lower case. *)
Definition Headers := list (string * string).

(** [Headers.prototype.get]: the values of the header joined by a comma and
    a space, [null] when the header is absent. *)
Fixpoint Headers_get (name : string) (headers : Headers) : option string :=
  match headers with
  | [] => None
  | (n, v) :: rest =>
      if String.eqb n name then
        match Headers_get name rest with
        | Some vs => Some (v +:+ ", " +:+ vs)
        | None => Some v
        end
      else Headers_get name rest
  end.

(** A parsed [URL] object, by its components as the getters return them
    ([port] is empty for the default port, [search] and [hash] carry their
    leading delimiter when they are not empty). A request URL carries no
    credentials. *)
Module URL.

Record t := mk {
  protocol : string;
  hostname : string;
  port : string;
  pathname : string;
  search : string;
  hash : string
}.

(** The [pathname] setter. The router only assigns paths it obtained from
    the [pathname] getter through [normalize]; the setter stores such a
    path as it is. *)
Definition set_pathname (url : t) (value : string) : t :=
  {| protocol := protocol url; hostname := hostname url; port := port url;
     pathname := value; search := search url; hash := hash url |}.

(** [URL.prototype.toString], the serialisation of the URL. *)
Definition toString (url : t) : string :=
  protocol url +:+ "//" +:+ hostname url
    +:+ (if String.eqb (port url) "" then "" else ":" +:+ port url)
    +:+ pathname url +:+ search url +:+ hash url.

End URL.

(** A [Request]: [req_url] is [new URL(request.url)], which cannot fail on
    the URL of a request. *)
Record Request := {
  req_url : URL.t;
  req_headers : Headers
}.

Record Response := {
  res_status : Z;
  res_headers : Headers;
  res_body : option string
}.

(** [ConnInfo] of [native_server.ts], as the tests build it. *)
Record Addr := { addr_hostname : string; addr_port : Z; addr_transport : string }.
Record ConnInfo := { localAddr : Addr; remoteAddr : Addr }.

Definition Handler : Type := Request → ConnInfo → Response.

(** Modelled from the spec: the [Status] enumeration and the [STATUS_TEXT]
    table of [http_status.ts], which is not among the sources; the two
    entries the router uses, 301 (Moved Permanently) and 404 with the status
    text "Not Found". *)
Inductive Status := MovedPermanently | NotFound.

Definition Status_code (status : Status) : Z :=
  match status with
  | MovedPermanently => 301
  | NotFound => 404
  end.

(** [STATUS_TEXT.get]. *)
Definition STATUS_TEXT_get (status : Status) : option string :=
  match status with
  | MovedPermanently => Some "Moved Permanently"
  | NotFound => Some "Not Found"
  end.

(** ** Exceptions and the monad of the methods *)

Inductive Exception :=
| Http (message : string) (* Deno.errors.Http *)
| TypeError.              (* of the URL constructor, whatever its message *)

Definition ERROR_INVALID_ROUTE : Exception := Http "Invalid route".

Record Router := {
  routeMap : gmap string Handler;
  orderedRoutes : list string;
  hosts : bool
}.

(** [new Router()]. *)
Definition new_Router : Router :=
  {| routeMap := ∅; orderedRoutes := []; hosts := false |}.

Definition M (A : Type) : Type := Router → (Exception + A) * Router.

Definition throw {A} (e : Exception) : M A := fun this => (inl e, this).

#[global] Instance M_ret : MRet M := fun A a this => (inr a, this).

#[global] Instance M_bind : MBind M := fun A B k m this =>
  match m this with
  | (inr a, this') => k a this'
  | (inl e, this') => (inl e, this')
  end.

(** Reading the fields, and assigning them. *)
Definition gets {A} (f : Router → A) : M A := fun this => (inr (f this), this).
Definition modify (f : Router → Router) : M unit := fun this => (inr tt, f this).

Definition set_routeMap (m : gmap string Handler) (this : Router) : Router :=
  {| routeMap := m; orderedRoutes := orderedRoutes this; hosts := hosts this |}.
Definition set_orderedRoutes (l : list string) (this : Router) : Router :=
  {| routeMap := routeMap this; orderedRoutes := l; hosts := hosts this |}.
Definition set_hosts (b : bool) (this : Router) : Router :=
  {| routeMap := routeMap this; orderedRoutes := orderedRoutes this; hosts := b |}.

(** ** Registration *)

(** [Router.handle]. *)
Definition handle (route : string) (handler : Handler) : M unit :=
  if String.eqb route "" then throw ERROR_INVALID_ROUTE else
  registered ← gets (λ this, Js.has (routeMap this) route);
  if registered : bool then
    throw (Http ("Route " +:+ route +:+ " already registered"))
  else
  modify (λ this, set_routeMap (<[route := handler]> (routeMap this)) this);;
  (if bool_decide (Js.at_ route (-1) = Some "/"%char) then
     index ← gets (λ this,
       Js.findIndex
         (λ orderedRoute,
            (String.length orderedRoute <? String.length route)%nat)
         (orderedRoutes this));
     modify (λ this,
       set_orderedRoutes (Js.splice_insert (orderedRoutes this) index route) this)
   else mret tt);;
  (if bool_decide (Js.nth_char route 0 ≠ Some "/"%char) then
     modify (set_hosts true)
   else mret tt).

(** ** Dispatch *)

(** A value or a thrown exception, as a computation that does not touch the
    fields. *)
Definition lift {A} (r : Exception + A) : M A := fun this => (r, this).

(** [_redirectHandler]. *)
Definition _redirectHandler (url : URL.t) (status : Status) : Handler :=
  fun _ _ =>
    let headers := [("location", URL.toString url)] in
    {| res_status := Status_code status; res_headers := headers;
       res_body := None |}.

(** [_notFoundHandler]. *)
Definition _notFoundHandler : Handler :=
  let status := NotFound in
  let statusText := STATUS_TEXT_get status in
  let headers :=
    [("content-type", "text/plain; charset=utf-8");
     ("x-content-type-options", "nosniff")] in
  fun _ _ =>
    {| res_status := Status_code status; res_headers := headers;
       res_body := statusText |}.

(** [for (const route of routes) if (test(route)) return ...]: whether the
    loop returned, the tests being run in order up to the first that holds. *)
Fixpoint for_of_returns (test : string → M bool) (routes : list string) : M bool :=
  match routes with
  | [] => mret false
  | route :: rest =>
      found ← test route;
      if found : bool then mret true else for_of_returns test rest
  end.

(** The loop of [#match] over [#orderedRoutes]. *)
Fixpoint match_scan (route : string) (routes : list string) : M (option Handler) :=
  match routes with
  | [] => mret None
  | registeredRoute :: rest =>
      if Js.startsWith route registeredRoute then
        gets (λ this, routeMap this !! registeredRoute)
      else match_scan route rest
  end.

Section Dispatch.

(** [normalize] of [path/posix.ts], which is not among the sources. *)
Variable normalize : string → string.

(** The hostname of [new URL(`proto://${hostHeader}`)] as a function of
    [hostHeader]; [None] when the constructor throws. *)
Variable proto_hostname : string → option string.

(** [_getHostname]: an absent header is [null] and an empty one is falsy
    as well. *)
Definition _getHostname (headers : Headers) (url : URL.t) : Exception + string :=
  match Headers_get "host" headers with
  | Some hostHeader =>
      if String.eqb hostHeader "" then inr (URL.hostname url)
      else
        match proto_hostname hostHeader with
        | Some hostname => inr hostname
        | None => inl TypeError
        end
  | None => inr (URL.hostname url)
  end.

(** [Router.#shouldRedirect]. *)
Definition shouldRedirect (host path : string) : M bool :=
  let routes := [path; host +:+ path] in
  registered ←
    for_of_returns (λ route, gets (λ this, Js.has (routeMap this) route)) routes;
  if registered : bool then mret false else
  let hasTrailingSlash := bool_decide (Js.at_ path (-1) = Some "/"%char) in
  withSlash ←
    for_of_returns
      (λ route, gets (λ this, Js.has (routeMap this) (route +:+ "/"))) routes;
  if withSlash : bool then mret (negb hasTrailingSlash) else mret false.

(** [Router.#match]; a registered handler is a function, hence truthy. *)
Definition match_ (route : string) : M (option Handler) :=
  handler ← gets (λ this, routeMap this !! route);
  match handler with
  | Some h => mret (Some h)
  | None =>
      routes ← gets orderedRoutes;
      match_scan route routes
  end.

(** [Router.#matchHandler]. *)
Definition matchHandler (host path : string) : M Handler :=
  withHosts ← gets hosts;
  handler ← (if withHosts : bool then match_ (host +:+ path) else mret None);
  match handler with
  | Some h => mret h
  | None =>
      handler' ← match_ path;
      mret (default _notFoundHandler handler')
  end.

(** [Router.#getHandler]. *)
Definition getHandler (request : Request) : M Handler :=
  let requestUrl := req_url request in
  hostname ← lift (_getHostname (req_headers request) requestUrl);
  let path := normalize (URL.pathname requestUrl) in
  redirect ← shouldRedirect hostname path;
  if redirect : bool then
    let requestUrl := URL.set_pathname requestUrl (path +:+ "/") in
    mret (_redirectHandler requestUrl MovedPermanently)
  else if negb (String.eqb path (URL.pathname requestUrl)) then
    let requestUrl := URL.set_pathname requestUrl path in
    mret (_redirectHandler requestUrl MovedPermanently)
  else matchHandler hostname path.

(** [Router.handler]. *)
Definition handler (request : Request) (connInfo : ConnInfo) : M Response :=
  h ← getHandler request;
  mret (h request connInfo).

End Dispatch.

(** ** Sequences of registrations *)

(** The router after the calls [handle(route, handler)] of the list, made in
    order on a new router; a call that throws leaves the router as it was
    and the next one is made all the same. *)
Definition register_all (calls : list (string * Handler)) : Router :=
  foldl (λ this call, snd (handle call.1 call.2 this)) new_Router calls.

(** ** The URL parser on a [Host] header *)

(** Modelled on the URL Standard: what [new URL] does on the string
    ["proto://"] followed by [hostHeader], as far as the hostname is
    concerned. The scheme [proto] is not special, so the host is an opaque
    host. An address in brackets is left to [ipv6], the parser and
    serialiser of IPv6 addresses. *)
Module Whatwg.

Definition code (c : ascii) : N := N_of_ascii c.

Definition is_c0_control_or_space (c : ascii) : bool := (code c <=? 32)%N.

Definition is_tab_or_newline (c : ascii) : bool :=
  (code c =? 9)%N || (code c =? 10)%N || (code c =? 13)%N.

Definition is_digit (c : ascii) : bool := (48 <=? code c)%N && (code c <=? 57)%N.

(** The end of the authority. *)
Definition ends_authority (c : ascii) : bool :=
  (code c =? 47)%N || (code c =? 63)%N || (code c =? 35)%N.

Definition forbidden_host_code_point (c : ascii) : bool :=
  existsb (N.eqb (code c))
    [0; 9; 10; 13; 32; 35; 47; 58; 60; 62; 63; 64; 91; 92; 93; 94; 124]%N.

Fixpoint drop_while (p : ascii → bool) (l : list ascii) : list ascii :=
  match l with
  | c :: l' => if p c then drop_while p l' else l
  | [] => []
  end.

Fixpoint take_until (p : ascii → bool) (l : list ascii) : list ascii :=
  match l with
  | c :: l' => if p c then [] else c :: take_until p l'
  | [] => []
  end.

(** The input without its trailing C0 controls and spaces, and without
    any tab or newline; the header follows ["proto://"], so that leading
    characters are never stripped from it. *)
Definition preprocess (l : list ascii) : list ascii :=
  List.filter (λ c, negb (is_tab_or_newline c))
    (rev (drop_while is_c0_control_or_space (rev l))).

(** Authority state: the authority ends at the first [/], [?] or [#];
    the host and the port follow its last [@]. [None] when there are
    credentials and nothing after them. *)
Fixpoint after_last_at (l : list ascii) : option (list ascii) :=
  match l with
  | [] => None
  | c :: l' =>
      match after_last_at l' with
      | Some rest => Some rest
      | None => if (code c =? 64)%N then Some l' else None
      end
  end.

Definition host_and_port (authority : list ascii) : option (list ascii) :=
  match after_last_at authority with
  | Some [] => None
  | Some rest => Some rest
  | None => Some authority
  end.

(** Host state: the buffer up to the first [:] outside brackets, and what
    follows that colon, if there is one. *)
Fixpoint split_host (insideBrackets : bool) (l : list ascii)
  : list ascii * option (list ascii) :=
  match l with
  | [] => ([], None)
  | c :: l' =>
      if (code c =? 58)%N && negb insideBrackets then ([], Some l')
      else
        let insideBrackets' :=
          if (code c =? 91)%N then true
          else if (code c =? 93)%N then false
          else insideBrackets in
        let '(buffer, port) := split_host insideBrackets' l' in
        (c :: buffer, port)
  end.

(** Port state: digits only, and at most 65535. *)
Definition port_value (l : list ascii) : N :=
  fold_left (λ n c, (10 * n + (code c - 48))%N) l 0%N.

Definition valid_port (l : list ascii) : bool :=
  forallb is_digit l && (port_value l <=? 65535)%N.

Definition hex_digit (n : N) : ascii :=
  ascii_of_N (if (n <? 10)%N then 48 + n else 55 + n).

Definition percent_encode_byte (n : N) : list ascii :=
  ["%"%char; hex_digit (n / 16); hex_digit (n mod 16)].

(** The C0 control percent-encode set: the C0 controls and all code
    points above [~], which are encoded in UTF-8 first (a code unit of a
    header value is at most U+00FF). *)
Definition percent_encode_c0 (c : ascii) : list ascii :=
  let n := code c in
  if (n <? 32)%N || (n =? 127)%N then percent_encode_byte n
  else if (127 <? n)%N then
    percent_encode_byte (192 + n / 64) ++ percent_encode_byte (128 + n mod 64)
  else [c].

Section Host.

Variable ipv6 : string → option string.

(** The opaque-host parser, and the serialisation of its result. *)
Definition opaque_host (input : list ascii) : option string :=
  if existsb forbidden_host_code_point input then None
  else Some (string_of_list_ascii (flat_map percent_encode_c0 input)).

(** The host parser on a host that is opaque: an input that starts with
    [[] has to end with []], and is an IPv6 address between the two. *)
Definition parse_opaque_host (input : list ascii) : option string :=
  match input with
  | c :: inner =>
      if (code c =? 91)%N then
        match rev inner with
        | last :: rev_address =>
            if (code last =? 93)%N then
              address ← ipv6 (string_of_list_ascii (rev rev_address));
              Some ("[" +:+ address +:+ "]")
            else None
        | [] => None
        end
      else opaque_host input
  | [] => opaque_host input
  end.

Definition proto_hostname (hostHeader : string) : option string :=
  let input := preprocess (list_ascii_of_string hostHeader) in
  let authority := take_until ends_authority input in
  hostport ← host_and_port authority;
  match split_host false hostport with
  | (buffer, Some port) =>
      if bool_decide (buffer = []) then None
      else
        hostname ← parse_opaque_host buffer;
        if valid_port port then Some hostname else None
  | (buffer, None) => parse_opaque_host buffer
  end.

End Host.

End Whatwg.

(** ** A path normaliser *)

(** Modelled from the spec: [PathNormalizer.normalize], the function
    [normalize] of [path/posix.ts], which is not among the sources. It
    collapses [.] and [..] segments and repeated separators, keeps a
    leading [/] and is idempotent. A trailing separator is kept, as the
    test of the redirection to the normalised path needs. *)
Module PathNormalizer.

(** The segments between the separators. *)
Fixpoint segments (path : string) : list string :=
  match path with
  | EmptyString => [""]
  | String c rest =>
      if Ascii.eqb c "/" then "" :: segments rest
      else
        match segments rest with
        | segment :: others => String c segment :: others
        | [] => [String c ""]
        end
  end.

(** The segments kept so far, last one first, after one more segment;
    above the root there is nothing, and a relative path keeps the [..]
    that lead out of it. *)
Definition step (isAbsolute : bool) (kept : list string) (segment : string)
  : list string :=
  if String.eqb segment "" || String.eqb segment "." then kept
  else if String.eqb segment ".." then
    match kept with
    | [] => if isAbsolute then [] else [".."]
    | last :: before =>
        if String.eqb last ".." then ".." :: kept else before
    end
  else segment :: kept.

Definition join (kept : list string) : string :=
  match rev kept with
  | [] => ""
  | first :: others => fold_left (λ path segment, path +:+ "/" +:+ segment) others first
  end.

Definition normalize (path : string) : string :=
  if String.eqb path "" then "." else
  let isAbsolute := bool_decide (String.get 0 path = Some "/"%char) in
  let trailingSeparator :=
    bool_decide (String.get (String.length path - 1) path = Some "/"%char) in
  let body := join (fold_left (step isAbsolute) (segments path) []) in
  let body := if String.eqb body "" && negb isAbsolute then "." else body in
  let body :=
    if negb (String.eqb body "") && trailingSeparator then body +:+ "/"
    else body in
  if isAbsolute then "/" +:+ body else body.

End PathNormalizer.

(** ** The specification's reading of the router *)

(** These definitions follow the words of the specification; the theorems
    below compare them with the methods above. *)
Module Spec.

(** "sorted by descending string length": no entry is longer than an
    entry before it. *)
Definition descending (subtrees : list string) : Prop :=
  StronglySorted (λ a b, (String.length b ≤ String.length a)%nat) subtrees.

(** The longest of the [subtrees] that are a string-prefix of [path]; of
    two of the same length, the one that comes first. *)
Definition longest_prefix (subtrees : list string) (path : string)
  : option string :=
  fold_left
    (λ best subtree,
       if Js.startsWith path subtree then
         match best with
         | Some b =>
             if (String.length b <? String.length subtree)%nat
             then Some subtree else best
         | None => Some subtree
         end
       else best)
    subtrees None.

(** The check for the redirection that appends a slash: neither
    candidate key is in [exact], one of them with an appended [/] is, and
    the path does not end in [/]. *)
Definition trailing_slash_redirect
    (this : Router) (hostname normalizedPath : string) : bool :=
  let exact := routeMap this in
  negb (Js.has exact normalizedPath)
  && negb (Js.has exact (hostname +:+ normalizedPath))
  && (Js.has exact (normalizedPath +:+ "/")
      || Js.has exact ((hostname +:+ normalizedPath) +:+ "/"))
  && negb (bool_decide (Js.at_ normalizedPath (-1) = Some "/"%char)).

(** One phase of the match: [exact] on the whole candidate, then the
    first of the [subtrees] that is a string-prefix of it. *)
Definition phase (this : Router) (candidate : string) : option Handler :=
  match routeMap this !! candidate with
  | Some h => Some h
  | None =>
      subtree ← List.find (Js.startsWith candidate) (orderedRoutes this);
      routeMap this !! subtree
  end.

(** The host-qualified phase, then the host-less one, then the response
    that nothing was found. *)
Definition resolve (this : Router) (hostname path : string) : Handler :=
  match phase this (hostname +:+ path) with
  | Some h => h
  | None => default _notFoundHandler (phase this path)
  end.

End Spec.

(** ** What the methods return *)

(** A computation that returns, and leaves the fields as they are. *)
Definition returns {A} (m : M A) (this : Router) (a : A) : Prop :=
  m this = (inr a, this).

(** What [#matchHandler] returns: the host-qualified phase is run only when
    a host-qualified route has been registered. *)
Definition matched (this : Router) (host path : string) : Handler :=
  match (if hosts this then Spec.phase this (host +:+ path) else None) with
  | Some h => h
  | None => default _notFoundHandler (Spec.phase this path)
  end.

(** What [#getHandler] returns for a request whose hostname is
    [hostname]. *)
Definition resolved (normalize : string → string)
    (this : Router) (request : Request) (hostname : string) : Handler :=
  let requestUrl := req_url request in
  let path := normalize (URL.pathname requestUrl) in
  if Spec.trailing_slash_redirect this hostname path then
    _redirectHandler (URL.set_pathname requestUrl (path +:+ "/")) MovedPermanently
  else if negb (String.eqb path (URL.pathname requestUrl)) then
    _redirectHandler (URL.set_pathname requestUrl path) MovedPermanently
  else matched this hostname path.

(** The fields after a call of [handle] that does not throw. *)
Definition registered (route : string) (handler : Handler) (this : Router)
  : Router :=
  {| routeMap := <[route := handler]> (routeMap this);
     orderedRoutes :=
       if bool_decide (Js.at_ route (-1) = Some "/"%char) then
         Js.splice_insert (orderedRoutes this)
           (Js.findIndex
              (λ orderedRoute,
                 (String.length orderedRoute <? String.length route)%nat)
              (orderedRoutes this))
           route
       else orderedRoutes this;
     hosts :=
       if bool_decide (Js.nth_char route 0 ≠ Some "/"%char) then true
       else hosts this |}.

(** The predicate of the [findIndex] call of [handle]. *)
Definition shorter_than (route orderedRoute : string) : bool :=
  (String.length orderedRoute <? String.length route)%nat.

(** Every entry of [#orderedRoutes] is a key of [#routeMap] and ends in
    a slash. *)
Definition subtrees_registered (this : Router) : Prop :=
  Forall
    (λ subtree,
       is_Some (routeMap this !! subtree)
       ∧ Js.at_ subtree (-1) = Some "/"%char)
    (orderedRoutes this).

(** As long as [#hosts] is [false], every key starts with a slash. *)
Definition hostless_keys (this : Router) : Prop :=
  hosts this = false →
  ∀ route, is_Some (routeMap this !! route) → Js.nth_char route 0 = Some "/"%char.

(** The outcomes of a dispatch: the result of a registered handler, a
    redirection that the router makes, or its "Not Found" response. *)
Inductive Outcome (this : Router) (request : Request) (connInfo : ConnInfo)
  : Response → Prop :=
| outcome_handler route h :
    routeMap this !! route = Some h →
    Outcome this request connInfo (h request connInfo)
| outcome_redirect url :
    Outcome this request connInfo
      (_redirectHandler url MovedPermanently request connInfo)
| outcome_not_found :
    Outcome this request connInfo (_notFoundHandler request connInfo).

(** A dispatch that throws: whatever the normaliser, the parser of IPv6
    addresses, the connection and the router are. *)
Definition always_throws (request : Request) (e : Exception) : Prop :=
  ∀ normalize ipv6 connInfo this,
    handler normalize (Whatwg.proto_hostname ipv6) request connInfo this
    = (inl e, this).

(** ** Sample data *)

(** Sample data: the connection information of the tests, a request for a
    path on [http://0.0.0.0:4505] and a handler that answers with a body. *)
Definition mockConnInfo : ConnInfo :=
  {| localAddr :=
       {| addr_hostname := "0.0.0.0"; addr_port := 4505; addr_transport := "tcp" |};
     remoteAddr :=
       {| addr_hostname := "0.0.0.0"; addr_port := 4505; addr_transport := "tcp" |} |}.

Definition request_for (pathname search hash : string) (headers : Headers)
  : Request :=
  {| req_url := URL.mk "http:" "0.0.0.0" "4505" pathname search hash;
     req_headers := headers |}.

Definition respond_with (body : string) : Handler :=
  fun _ _ => {| res_status := 200; res_headers := []; res_body := Some body |}.

(** No support for addresses in brackets. *)
Definition no_ipv6 (address : string) : option string := None.

(** The router of [testdata/simple_router.ts]: the route [/] and then the
    subtree [/admin/], each with its handler. *)
Definition simple_router (hello restricted : Handler) : Router :=
  register_all [("/", hello); ("/admin/", restricted)].

(** The calls that register a subtree, in the order of the calls. *)
Definition subtree_calls (calls : list (string * Handler))
  : list (string * Handler) :=
  List.filter (λ call, bool_decide (Js.at_ call.1 (-1) = Some "/"%char)) calls.

(** * Properties *)

(** ** Running the methods *)

Lemma returns_ret {A} (a : A) this : returns (mret a) this a.
Proof. reflexivity. Qed.

Lemma returns_gets {A} (f : Router → A) this : returns (gets f) this (f this).
Proof. reflexivity. Qed.

Lemma returns_bind {A B} (m : M A) (k : A → M B) this a b :
  returns m this a → returns (k a) this b → returns (m ≫= k) this b.
Proof.
  unfold returns, mbind, M_bind. intros -> Hk. exact Hk.
Qed.

Lemma returns_inj {A} (m : M A) this a a' :
  returns m this a → returns m this a' → a = a'.
Proof. unfold returns. intros -> [=]. done. Qed.

Lemma for_of_returns_has (key : string → string) routes this :
  returns
    (for_of_returns (λ route, gets (λ this, Js.has (routeMap this) (key route))) routes)
    this
    (existsb (λ route, Js.has (routeMap this) (key route)) routes).
Proof.
  induction routes as [|route rest IH]; [reflexivity|].
  cbn [for_of_returns existsb].
  eapply returns_bind; [apply returns_gets|].
  cbv beta. destruct (Js.has (routeMap this) (key route)); [reflexivity|exact IH].
Qed.

Lemma shouldRedirect_returns host path this :
  returns (shouldRedirect host path) this
    (Spec.trailing_slash_redirect this host path).
Proof.
  unfold shouldRedirect, Spec.trailing_slash_redirect.
  eapply returns_bind; [apply (for_of_returns_has (λ route, route))|].
  cbn [existsb].
  destruct (Js.has (routeMap this) path); [reflexivity|].
  destruct (Js.has (routeMap this) (host +:+ path)); [reflexivity|].
  cbn [orb negb andb].
  eapply returns_bind; [apply (for_of_returns_has (λ route, route +:+ "/"))|].
  cbn [existsb]. rewrite orb_false_r.
  destruct (_ || _); reflexivity.
Qed.

Lemma match_scan_returns route routes this :
  returns (match_scan route routes) this
    (List.find (Js.startsWith route) routes ≫= λ subtree, routeMap this !! subtree).
Proof.
  induction routes as [|registeredRoute rest IH]; [reflexivity|].
  cbn [match_scan List.find].
  destruct (Js.startsWith route registeredRoute); [reflexivity|exact IH].
Qed.

Lemma match_returns route this :
  returns (match_ route) this (Spec.phase this route).
Proof.
  unfold match_, Spec.phase.
  eapply returns_bind; [apply returns_gets|]. cbv beta.
  destruct (routeMap this !! route); [reflexivity|].
  eapply returns_bind; [apply returns_gets|].
  apply match_scan_returns.
Qed.

Lemma matchHandler_returns host path this :
  returns (matchHandler host path) this (matched this host path).
Proof.
  unfold matchHandler, matched.
  eapply returns_bind; [apply returns_gets|]. cbv beta.
  eapply returns_bind.
  { instantiate (1 := if hosts this then Spec.phase this (host +:+ path) else None).
    destruct (hosts this); [apply match_returns|reflexivity]. }
  cbv beta.
  destruct (if hosts this then _ else _); [reflexivity|].
  eapply returns_bind; [apply match_returns|reflexivity].
Qed.

Section DispatchRuns.

Variable normalize : string → string.
Variable proto_hostname : string → option string.

Lemma getHandler_returns request this hostname :
  _getHostname proto_hostname (req_headers request) (req_url request)
    = inr hostname →
  returns (getHandler normalize proto_hostname request) this
    (resolved normalize this request hostname).
Proof.
  intros Hhost. unfold getHandler, resolved. rewrite Hhost.
  eapply returns_bind; [reflexivity|]. cbv beta zeta.
  eapply returns_bind; [apply shouldRedirect_returns|]. cbv beta.
  destruct (Spec.trailing_slash_redirect _ _ _); [reflexivity|].
  destruct (negb _); [reflexivity|].
  apply matchHandler_returns.
Qed.

Lemma getHandler_throws request this e :
  _getHostname proto_hostname (req_headers request) (req_url request)
    = inl e →
  getHandler normalize proto_hostname request this = (inl e, this).
Proof.
  intros Hhost. unfold getHandler. rewrite Hhost. reflexivity.
Qed.

Lemma handler_returns request connInfo this hostname :
  _getHostname proto_hostname (req_headers request) (req_url request)
    = inr hostname →
  returns (handler normalize proto_hostname request connInfo) this
    (resolved normalize this request hostname request connInfo).
Proof.
  intros Hhost. unfold handler.
  eapply returns_bind; [apply getHandler_returns, Hhost|reflexivity].
Qed.

Lemma handler_throws request connInfo this e :
  _getHostname proto_hostname (req_headers request) (req_url request)
    = inl e →
  handler normalize proto_hostname request connInfo this = (inl e, this).
Proof.
  intros Hhost. unfold handler, mbind, M_bind.
  rewrite (getHandler_throws _ _ _ Hhost). reflexivity.
Qed.

End DispatchRuns.

(** ** Running a registration *)

Lemma handle_run route handler this :
  handle route handler this =
    if String.eqb route "" then (inl ERROR_INVALID_ROUTE, this)
    else if Js.has (routeMap this) route then
      (inl (Http ("Route " +:+ route +:+ " already registered")), this)
    else (inr (), registered route handler this).
Proof.
  unfold handle, registered.
  destruct (String.eqb route ""); [reflexivity|].
  unfold mbind, M_bind, gets, modify, throw, mret, M_ret. cbn.
  destruct (Js.has (routeMap this) route); [reflexivity|].
  destruct this as [m l b]; cbn.
  do 2 case_bool_decide; reflexivity.
Qed.

Lemma handle_state route handler this :
  snd (handle route handler this) = this
  ∨ (route ≠ "" ∧ routeMap this !! route = None
     ∧ snd (handle route handler this) = registered route handler this).
Proof.
  rewrite handle_run.
  destruct (String.eqb_spec route ""); [by left|].
  unfold Js.has. case_bool_decide as Hhas; [by left|].
  right. split_and!; [done| |done].
  by apply eq_None_not_Some.
Qed.

(** An induction principle for the routers that registrations build. *)
Lemma register_all_ind (P : Router → Prop) :
  P new_Router →
  (∀ this route handler,
     P this → route ≠ "" → routeMap this !! route = None →
     P (registered route handler this)) →
  ∀ calls, P (register_all calls).
Proof.
  intros Hnew Hstep calls. unfold register_all.
  induction calls as [|[route handler] calls IH] using rev_ind; [exact Hnew|].
  rewrite foldl_app. cbn [foldl fst snd].
  destruct (handle_state route handler
              (foldl (λ this call, (handle call.1 call.2 this).2) new_Router calls))
    as [->|(Hne & Hfresh & ->)]; [exact IH|].
  by apply Hstep.
Qed.

Lemma splice_insert_perm {A} (l : list A) (start : Z) (item : A) :
  Js.splice_insert l start item ≡ₚ item :: l.
Proof.
  unfold Js.splice_insert.
  rewrite <- Permutation_middle. by rewrite take_drop.
Qed.

(** ** The insertion into [#orderedRoutes] *)

Lemma findIndex_from_found {A} (p : A → bool) l1 x l2 i :
  Forall (λ y, p y = false) l1 → p x = true →
  Js.findIndex_from p (l1 ++ x :: l2) i = i + Z.of_nat (length l1).
Proof.
  intros Hl1 Hx. revert i.
  induction Hl1 as [|y l1 Hy _ IH]; intros i; cbn.
  - rewrite Hx. lia.
  - rewrite Hy, IH. lia.
Qed.

Lemma findIndex_from_none {A} (p : A → bool) l i :
  Forall (λ y, p y = false) l → Js.findIndex_from p l i = -1.
Proof.
  intros Hl. revert i.
  induction Hl as [|y l Hy _ IH]; intros i; cbn; [done|].
  by rewrite Hy, IH.
Qed.

(** When an entry is shorter than the route, the route goes immediately
    before the first such entry. *)
Lemma splice_before_first_shorter route l1 x l2 :
  Forall (λ y, shorter_than route y = false) l1 →
  shorter_than route x = true →
  Js.splice_insert (l1 ++ x :: l2)
    (Js.findIndex (shorter_than route) (l1 ++ x :: l2)) route
  = l1 ++ route :: x :: l2.
Proof.
  intros Hl1 Hx. unfold Js.findIndex.
  rewrite (findIndex_from_found _ _ _ _ _ Hl1 Hx).
  unfold Js.splice_insert.
  rewrite length_app. cbn [length].
  destruct (Z.ltb_spec (0 + Z.of_nat (length l1)) 0); [lia|].
  rewrite Z.min_l by lia.
  replace (Z.to_nat (0 + Z.of_nat (length l1))) with (length l1) by lia.
  by rewrite take_app_length, drop_app_length.
Qed.

(** When no entry is shorter, [findIndex] gives [-1], and [splice] counts
    that index from the end: the route goes before the last entry, and not
    after it. *)
Lemma splice_without_shorter route l last :
  Forall (λ y, shorter_than route y = false) (l ++ [last]) →
  Js.splice_insert (l ++ [last])
    (Js.findIndex (shorter_than route) (l ++ [last])) route
  = l ++ [route; last].
Proof.
  intros Hl. unfold Js.findIndex.
  rewrite (findIndex_from_none _ _ _ Hl).
  unfold Js.splice_insert.
  rewrite length_app. cbn [length].
  change (-1 <? 0) with true. cbv iota.
  rewrite Z.max_l by lia.
  replace (Z.to_nat (Z.of_nat (length l + 1) + -1)) with (length l) by lia.
  by rewrite take_app_length, drop_app_length.
Qed.

Lemma splice_into_empty route :
  Js.splice_insert [] (Js.findIndex (shorter_than route) []) route = [route].
Proof. reflexivity. Qed.

(** The first entry that satisfies a predicate, when there is one. *)
Lemma Exists_first {A} (p : A → bool) (l : list A) :
  Exists (λ y, p y = true) l →
  ∃ l1 x l2,
    l = l1 ++ x :: l2 ∧ Forall (λ y, p y = false) l1 ∧ p x = true.
Proof.
  induction l as [|y l IH]; intros Hex; [by apply Exists_nil in Hex|].
  destruct (p y) eqn:Hy.
  - exists [], y, l. by split_and!.
  - apply Exists_cons in Hex as [Hex|Hex]; [congruence|].
    destruct (IH Hex) as (l1 & x & l2 & -> & Hl1 & Hx).
    exists (y :: l1), x, l2. split_and!; [done| |done].
    by constructor.
Qed.

(** The insertion of [handle] keeps a list sorted by descending length
    when the list is empty or has an entry shorter than the route. *)
Lemma splice_descending route l :
  Spec.descending l →
  l = [] ∨ Exists (λ y, shorter_than route y = true) l →
  Spec.descending
    (Js.splice_insert l (Js.findIndex (shorter_than route) l) route).
Proof.
  unfold Spec.descending. intros Hsorted [->|Hex].
  { rewrite splice_into_empty. repeat constructor. }
  destruct (Exists_first _ _ Hex) as (l1 & x & l2 & -> & Hl1 & Hx).
  rewrite (splice_before_first_shorter _ _ _ _ Hl1 Hx).
  apply StronglySorted_app in Hsorted as (Hcross & Hs1 & Hs2).
  apply StronglySorted_cons in Hs2 as Hx2. destruct Hx2 as [Hx2 _].
  unfold shorter_than in Hx. apply Nat.ltb_lt in Hx.
  apply StronglySorted_app_2; [|done|].
  - intros y z Hy Hz. apply elem_of_cons in Hz as [->|Hz]; [|by apply Hcross].
    rewrite Forall_forall in Hl1. specialize (Hl1 y Hy).
    unfold shorter_than in Hl1. apply Nat.ltb_ge in Hl1. done.
  - constructor; [done|]. constructor; [lia|].
    eapply Forall_impl; [exact Hx2|]. intros z Hz. cbv beta in Hz. lia.
Qed.

(** On a list sorted by descending length, the first entry that is a
    prefix of the path is the longest one. *)
Lemma find_longest_prefix subtrees path :
  Spec.descending subtrees →
  List.find (Js.startsWith path) subtrees = Spec.longest_prefix subtrees path.
Proof.
  unfold Spec.descending, Spec.longest_prefix.
  set (keep := λ (best : option string) subtree,
         if Js.startsWith path subtree then
           match best with
           | Some b =>
               if (String.length b <? String.length subtree)%nat
               then Some subtree else best
           | None => Some subtree
           end
         else best).
  assert (∀ l b,
            Forall (λ s, (String.length s ≤ String.length b)%nat) l →
            fold_left keep l (Some b) = Some b) as Hkept.
  { induction l as [|s l IH]; intros b Hall; [done|].
    apply Forall_cons in Hall as [Hs Hall]. cbn [fold_left].
    replace (keep (Some b) s) with (Some b); [by apply IH|].
    unfold keep. destruct (Js.startsWith path s); [|done].
    apply Nat.ltb_ge in Hs. by rewrite Hs. }
  induction 1 as [|x l _ IH Hall]; [done|].
  cbn [List.find fold_left]. unfold keep at 2.
  destruct (Js.startsWith path x); [|exact IH].
  symmetry. by apply Hkept.
Qed.

(** ** Invariants of the routers that registrations build *)

Lemma register_all_subtrees_registered calls :
  subtrees_registered (register_all calls).
Proof.
  apply register_all_ind; [by constructor|].
  intros this route handler IH _ _.
  unfold subtrees_registered, registered in *. cbn.
  assert (Forall
            (λ subtree,
               is_Some (<[route:=handler]> (routeMap this) !! subtree)
               ∧ Js.at_ subtree (-1) = Some "/"%char)
            (orderedRoutes this)) as IH'.
  { eapply Forall_impl; [exact IH|]. intros subtree [[h Hh] Hslash].
    split; [|done]. rewrite lookup_insert. case_decide; eauto. }
  case_bool_decide as Hslash; [|exact IH'].
  rewrite splice_insert_perm. constructor; [|exact IH'].
  split; [|done]. rewrite lookup_insert_eq. eauto.
Qed.

Lemma register_all_hostless_keys calls : hostless_keys (register_all calls).
Proof.
  apply register_all_ind.
  - intros _ route [h Hh]. cbn in Hh. by rewrite lookup_empty in Hh.
  - intros this route handler IH _ _.
    unfold hostless_keys, registered in *. cbn.
    case_bool_decide as Hfirst; [done|].
    intros Hhosts key [h Hh].
    rewrite lookup_insert in Hh. case_decide as Hkey.
    + subst key. by destruct (decide (Js.nth_char route 0 = Some "/"%char)).
    + apply (IH Hhosts). eauto.
Qed.

(** ** Registration: the claims *)

(** C1. The claim: after every insertion [#orderedRoutes] is sorted by
    descending length, the new route sitting immediately before the first
    shorter entry. The code at the failing input: registering ["/a/b/"] and
    then the shorter ["/a/"] succeeds twice and leaves the list
    [["/a/"; "/a/b/"]], which is not sorted by descending length:
    [findIndex] finds no shorter entry and returns [-1], and [splice] puts
    the route before the last entry (lemma [splice_without_shorter]). *)
Theorem handle_shorter_subtree_breaks_order (h1 h2 : Handler) :
  let first := handle "/a/b/" h1 new_Router in
  let second := handle "/a/" h2 (snd first) in
  fst first = inr ()
  ∧ fst second = inr ()
  ∧ orderedRoutes (snd first) = ["/a/b/"]
  ∧ orderedRoutes (snd second) = ["/a/"; "/a/b/"]
  ∧ ¬ Spec.descending (orderedRoutes (snd second)).
Proof.
  cbv zeta.
  assert (orderedRoutes
            (snd (handle "/a/" h2 (snd (handle "/a/b/" h1 new_Router))))
          = ["/a/"; "/a/b/"]) as Hroutes by (vm_compute; reflexivity).
  split_and!; [vm_compute; reflexivity..|exact Hroutes|].
  rewrite Hroutes. unfold Spec.descending. intros Hsorted.
  apply StronglySorted_inv in Hsorted as [_ Hall].
  apply Forall_inv in Hall. cbn in Hall. lia.
Qed.

(** C10. After every sequence of calls of [handle], every entry of
    [#orderedRoutes] is a key of [#routeMap] and ends in a slash; so when
    an entry is a prefix of the route, the scan of [#match] returns the
    handler of the first such entry, and never [undefined]. *)
Theorem orderedRoutes_are_registered (calls : list (string * Handler)) :
  let this := register_all calls in
  Forall
    (λ subtree,
       is_Some (routeMap this !! subtree)
       ∧ Js.at_ subtree (-1) = Some "/"%char)
    (orderedRoutes this)
  ∧ ∀ route subtree,
      subtree ∈ orderedRoutes this → Js.startsWith route subtree = true →
      ∃ first h,
        List.find (Js.startsWith route) (orderedRoutes this) = Some first
        ∧ routeMap this !! first = Some h
        ∧ returns (match_scan route (orderedRoutes this)) this (Some h).
Proof.
  cbv zeta. pose proof (register_all_subtrees_registered calls) as Hinv.
  split; [exact Hinv|].
  intros route subtree Hin Hprefix.
  destruct (List.find (Js.startsWith route) (orderedRoutes (register_all calls)))
    as [first|] eqn:Hfind.
  - apply find_some in Hfind as Hfirst. destruct Hfirst as [Hfirst _].
    unfold subtrees_registered in Hinv. rewrite Forall_forall in Hinv.
    destruct (Hinv first) as [[h Hh] _]; [by apply list_elem_of_In|].
    exists first, h. split_and!; [done..|].
    unfold returns. rewrite match_scan_returns, Hfind. cbn. by rewrite Hh.
  - apply list_elem_of_In in Hin.
    pose proof (find_none _ _ Hfind _ Hin) as Hno. congruence.
Qed.

(** C5. [handle] throws the error of an invalid route exactly for the
    empty route, and the error of a duplicate route exactly for a non-empty
    route that is a key of [#routeMap]; it throws nothing else, and when it
    throws, [#routeMap], [#orderedRoutes] and [#hosts] are as before the
    call. *)
Theorem handle_register_or_reject (route : string) (handler : Handler) (this : Router) :
  (fst (handle route handler this) = inl ERROR_INVALID_ROUTE ↔ route = "")
  ∧ (fst (handle route handler this)
       = inl (Http ("Route " +:+ route +:+ " already registered"))
     ↔ route ≠ "" ∧ is_Some (routeMap this !! route))
  ∧ (∀ e, fst (handle route handler this) = inl e →
       (e = ERROR_INVALID_ROUTE
        ∨ e = Http ("Route " +:+ route +:+ " already registered"))
       ∧ snd (handle route handler this) = this).
Proof.
  rewrite handle_run. unfold Js.has, ERROR_INVALID_ROUTE.
  destruct (String.eqb_spec route "") as [->|Hne].
  - cbn. split_and!.
    + done.
    + split; [discriminate|]. by intros [? _].
    + intros e [= <-]. eauto.
  - case_bool_decide as Hhas; cbn.
    + split_and!.
      * split; [discriminate|done].
      * done.
      * intros e [= <-]. eauto.
    + split_and!.
      * split; [discriminate|done].
      * split; [discriminate|]. by intros [_ ?].
      * discriminate.
Qed.

(** ** Dispatch: the order of the match *)

Lemma startsWith_first_char route registeredRoute c :
  Js.startsWith route registeredRoute = true →
  Js.nth_char registeredRoute 0 = Some c →
  Js.nth_char route 0 = Some c.
Proof.
  unfold Js.startsWith, Js.nth_char.
  destruct registeredRoute as [|a r]; [discriminate|].
  destruct route as [|b s]; [discriminate|].
  cbn. destruct (ascii_dec a b) as [->|]; [by intros _ ?|discriminate].
Qed.

Lemma nth_char_append host path :
  host ≠ "" → Js.nth_char (host +:+ path) 0 = Js.nth_char host 0.
Proof. by destruct host. Qed.

(** Without a host-qualified route, the host-qualified phase finds nothing
    that the host-less phase does not find. *)
Lemma hostless_phase this host path :
  subtrees_registered this → hostless_keys this → hosts this = false →
  Js.nth_char host 0 ≠ Some "/"%char →
  Spec.phase this (host +:+ path) = None ∨ host = "".
Proof.
  intros Hsub Hkeys Hhosts Hhost.
  destruct (decide (host = "")) as [|Hne]; [by right|left].
  assert (∀ key, is_Some (routeMap this !! key) →
                 Js.startsWith (host +:+ path) key = false) as Hno.
  { intros key Hkey. apply not_true_is_false. intros Hprefix.
    apply Hhost. rewrite <- (nth_char_append host path Hne).
    eapply startsWith_first_char; [exact Hprefix|]. by apply Hkeys. }
  unfold Spec.phase.
  destruct (routeMap this !! (host +:+ path)) as [h|] eqn:Hexact.
  { exfalso. apply Hhost. rewrite <- (nth_char_append host path Hne).
    apply Hkeys; [done|]. by rewrite Hexact. }
  destruct (List.find _ _) as [subtree|] eqn:Hfind; [|done].
  apply find_some in Hfind as [Hin Hprefix].
  unfold subtrees_registered in Hsub. rewrite Forall_forall in Hsub.
  destruct (Hsub subtree) as [Hkey _]; [by apply list_elem_of_In|].
  rewrite (Hno subtree Hkey) in Hprefix. discriminate.
Qed.

Lemma matched_resolve calls host path :
  Js.nth_char host 0 ≠ Some "/"%char →
  matched (register_all calls) host path
  = Spec.resolve (register_all calls) host path.
Proof.
  intros Hhost. unfold matched, Spec.resolve.
  destruct (hosts (register_all calls)) eqn:Hhosts; [done|].
  destruct (hostless_phase _ host path
              (register_all_subtrees_registered calls)
              (register_all_hostless_keys calls) Hhosts Hhost) as [->| ->].
  - done.
  - change ("" +:+ path) with path.
    by destruct (Spec.phase (register_all calls) path).
Qed.

(** The hostname of a [Host] header never starts with a slash. *)
Lemma proto_hostname_first_char ipv6 hostHeader hostname :
  Whatwg.proto_hostname ipv6 hostHeader = Some hostname →
  Js.nth_char hostname 0 ≠ Some "/"%char.
Proof.
  assert (∀ input host,
            Whatwg.parse_opaque_host ipv6 input = Some host →
            Js.nth_char host 0 ≠ Some "/"%char) as Hhost.
  { intros [|c rest] host; unfold Whatwg.parse_opaque_host.
    { unfold Whatwg.opaque_host. cbn. by intros [= <-]. }
    destruct (Whatwg.code c =? 91)%N.
    { destruct (rev rest) as [|last rev_address]; [discriminate|].
      destruct (Whatwg.code last =? 93)%N; [|discriminate].
      destruct (ipv6 _) as [address|]; cbn; [|discriminate].
      by intros [= <-]. }
    unfold Whatwg.opaque_host. cbn [existsb flat_map].
    destruct (Whatwg.forbidden_host_code_point c) eqn:Hc; [discriminate|].
    cbn [orb]. destruct (existsb _ rest); [discriminate|].
    intros [= <-]. unfold Whatwg.percent_encode_c0.
    destruct (_ || _); [discriminate|].
    destruct (127 <? Whatwg.code c)%N; [discriminate|].
    cbn. intros [= ->]. discriminate. }
  unfold Whatwg.proto_hostname.
  destruct (Whatwg.host_and_port _) as [hostport|]; cbn; [|discriminate].
  destruct (Whatwg.split_host false hostport) as [buffer [port|]];
    [|by apply Hhost].
  case_bool_decide; [discriminate|].
  destruct (Whatwg.parse_opaque_host ipv6 buffer) as [host|] eqn:Hparse;
    cbn; [|discriminate].
  destruct (Whatwg.valid_port port); [|discriminate].
  intros [= <-]. by eapply Hhost.
Qed.

(** C4. On a router built by calls of [handle], and for a hostname (which
    never starts with a slash), [#match] looks the route up in [#routeMap]
    before it scans [#orderedRoutes], and [#matchHandler] returns what the
    host-qualified phase finds, else what the host-less phase finds, else
    the handler for "Not Found". So an exact match beats a subtree in its
    phase, and a subtree that matches the host-qualified candidate beats
    whatever the host-less phase would find. *)
Theorem matchHandler_phase_order
    (calls : list (string * Handler)) (host path : string) :
  Js.nth_char host 0 ≠ Some "/"%char →
  let this := register_all calls in
  (∀ route, returns (match_ route) this (Spec.phase this route))
  ∧ returns (matchHandler host path) this (Spec.resolve this host path)
  ∧ (∀ route h,
       routeMap this !! route = Some h → returns (match_ route) this (Some h))
  ∧ (∀ subtree h,
       routeMap this !! (host +:+ path) = None →
       List.find (Js.startsWith (host +:+ path)) (orderedRoutes this)
         = Some subtree →
       routeMap this !! subtree = Some h →
       returns (matchHandler host path) this h).
Proof.
  intros Hhost this.
  assert (returns (matchHandler host path) this (Spec.resolve this host path))
    as Hresolve.
  { unfold this. rewrite <- (matched_resolve calls host path Hhost).
    apply matchHandler_returns. }
  split_and!.
  - intros route. apply match_returns.
  - exact Hresolve.
  - intros route h Hexact.
    pose proof (match_returns route this) as Hm.
    unfold Spec.phase in Hm. by rewrite Hexact in Hm.
  - intros subtree h Hexact Hfind Hsub.
    unfold Spec.resolve, Spec.phase in Hresolve.
    rewrite Hexact, Hfind in Hresolve. cbn in Hresolve.
    by rewrite Hsub in Hresolve.
Qed.

(** ** Dispatch: the claims *)

(** C2. The claim: for every order of registration, dispatch resolves to
    the handler of the longest registered subtree that is a prefix of the
    path. The code at the failing input: after ["/a/b/c/"], ["/a/b/"] and
    ["/a/"], registered in that order, [#orderedRoutes] is
    [["/a/b/"; "/a/"; "/a/b/c/"]], and the request for [/a/b/c/d] gets the
    handler of ["/a/b/"], while the longest prefix is ["/a/b/c/"]. *)
Theorem dispatch_shorter_subtree_wins
    (proto_hostname : string → option string) (h_abc h_ab h_a : Handler)
    (connInfo : ConnInfo) :
  let this := register_all [("/a/b/c/", h_abc); ("/a/b/", h_ab); ("/a/", h_a)] in
  let request := request_for "/a/b/c/d" "" "" [] in
  orderedRoutes this = ["/a/b/"; "/a/"; "/a/b/c/"]
  ∧ Spec.longest_prefix (orderedRoutes this) "/a/b/c/d" = Some "/a/b/c/"
  ∧ routeMap this !! "/a/b/c/" = Some h_abc
  ∧ routeMap this !! "/a/b/" = Some h_ab
  ∧ routeMap this !! "/a/" = Some h_a
  ∧ handler PathNormalizer.normalize proto_hostname request connInfo this
    = (inr (h_ab request connInfo), this).
Proof.
  cbv zeta. split_and!; [vm_compute; reflexivity..|].
  pose proof (handler_returns PathNormalizer.normalize proto_hostname
                (request_for "/a/b/c/d" "" "" []) connInfo
                (register_all [("/a/b/c/", h_abc); ("/a/b/", h_ab); ("/a/", h_a)])
                "0.0.0.0" eq_refl) as Hrun.
  unfold returns in Hrun. rewrite Hrun.
  vm_compute. reflexivity.
Qed.

(** C9. [handler] leaves [#routeMap], [#orderedRoutes] and [#hosts] as they
    are, whether it returns or throws; so the same request dispatched a
    second time gives the same result as the first time. *)
Theorem handler_reads_only
    (normalize : string → string) (proto_hostname : string → option string)
    (request : Request) (connInfo : ConnInfo) (this : Router) :
  let dispatch := handler normalize proto_hostname request connInfo in
  routeMap (snd (dispatch this)) = routeMap this
  ∧ orderedRoutes (snd (dispatch this)) = orderedRoutes this
  ∧ hosts (snd (dispatch this)) = hosts this
  ∧ snd (dispatch this) = this
  ∧ fst (dispatch (snd (dispatch this))) = fst (dispatch this).
Proof.
  cbv zeta.
  assert (snd (handler normalize proto_hostname request connInfo this) = this)
    as Hsame.
  { destruct (_getHostname proto_hostname (req_headers request) (req_url request))
      as [e|hostname] eqn:Hhost.
    - by rewrite (handler_throws normalize proto_hostname _ connInfo this _ Hhost).
    - by rewrite (handler_returns normalize proto_hostname _ connInfo this _ Hhost). }
  rewrite Hsame. done.
Qed.

Lemma phase_registered this candidate h :
  Spec.phase this candidate = Some h → ∃ route, routeMap this !! route = Some h.
Proof.
  unfold Spec.phase.
  destruct (routeMap this !! candidate) as [h'|] eqn:Hexact.
  - intros [= <-]. eauto.
  - destruct (List.find _ _) as [subtree|]; cbn; [eauto|discriminate].
Qed.

Lemma matched_outcome this request connInfo host path :
  Outcome this request connInfo (matched this host path request connInfo).
Proof.
  unfold matched.
  destruct (if hosts this then _ else _) as [h|] eqn:Hhost.
  - destruct (hosts this); [|discriminate].
    apply phase_registered in Hhost as [route Hroute].
    by eapply outcome_handler.
  - destruct (Spec.phase this path) as [h|] eqn:Hpath; cbn.
    + apply phase_registered in Hpath as [route Hroute].
      by eapply outcome_handler.
    + apply outcome_not_found.
Qed.

(** C8, the claim as stated fails: a request whose [Host] header is [a b]
    makes [handler] throw the [TypeError] of the URL constructor, a space
    being a forbidden host code point. *)
Lemma handler_throws_on_host_with_space :
  always_throws (request_for "/" "" "" [("host", "a b")]) TypeError.
Proof.
  intros normalize ipv6 connInfo this.
  apply handler_throws. reflexivity.
Qed.

(** C8, amended. When [_getHostname] gives a hostname, which it does for a
    request without a [Host] header, with an empty one, or with one that
    the URL constructor accepts, [handler] returns one response: the result
    of a registered handler, a redirection with status 301, or the 404
    response. Otherwise the header is not empty, the URL constructor
    rejects it, and [handler] throws that [TypeError]. *)
Theorem handler_outcome
    (normalize : string → string) (proto_hostname : string → option string)
    (request : Request) (connInfo : ConnInfo) (this : Router) :
  match _getHostname proto_hostname (req_headers request) (req_url request) with
  | inr hostname =>
      ∃ response,
        handler normalize proto_hostname request connInfo this
        = (inr response, this)
        ∧ Outcome this request connInfo response
  | inl e =>
      handler normalize proto_hostname request connInfo this = (inl e, this)
      ∧ e = TypeError
      ∧ ∃ hostHeader,
          Headers_get "host" (req_headers request) = Some hostHeader
          ∧ hostHeader ≠ ""
          ∧ proto_hostname hostHeader = None
  end.
Proof.
  destruct (_getHostname proto_hostname (req_headers request) (req_url request))
    as [e|hostname] eqn:Hhost.
  - split; [by apply handler_throws|].
    unfold _getHostname in Hhost.
    destruct (Headers_get "host" (req_headers request)) as [hostHeader|];
      [|discriminate].
    destruct (String.eqb_spec hostHeader ""); [discriminate|].
    destruct (proto_hostname hostHeader) eqn:Hparse; [discriminate|].
    injection Hhost as <-. eauto.
  - eexists. split; [by apply handler_returns|].
    unfold resolved.
    destruct (Spec.trailing_slash_redirect _ _ _); [apply outcome_redirect|].
    destruct (negb _); [apply outcome_redirect|].
    apply matched_outcome.
Qed.

(** The condition of the redirection that appends a slash, in the words of
    the claim. *)
Lemma trailing_slash_redirect_true this hostname path :
  Spec.trailing_slash_redirect this hostname path = true
  ↔ routeMap this !! path = None
    ∧ routeMap this !! (hostname +:+ path) = None
    ∧ (is_Some (routeMap this !! (path +:+ "/"))
       ∨ is_Some (routeMap this !! ((hostname +:+ path) +:+ "/")))
    ∧ Js.at_ path (-1) ≠ Some "/"%char.
Proof.
  unfold Spec.trailing_slash_redirect, Js.has.
  rewrite !andb_true_iff, orb_true_iff, !negb_true_iff, !bool_decide_eq_false,
    !bool_decide_eq_true, <- !eq_None_not_Some.
  tauto.
Qed.

(** C3. For a request whose hostname is [hostname] and whose normalised
    path is [path]: [#shouldRedirect] returns [true] exactly when neither
    [path] nor [hostname + path] is a key of [#routeMap], one of them with
    an appended slash is, and [path] does not end in a slash. Then, and
    only then, [#getHandler] takes the branch of the redirection that
    appends a slash: the response has status 301 and its location is the
    request URL with the path [path + "/"], the query string kept (and the
    fragment as well). *)
Theorem trailing_slash_redirect_exactly
    (normalize : string → string) (proto_hostname : string → option string)
    (request : Request) (connInfo : ConnInfo) (this : Router)
    (hostname : string) :
  _getHostname proto_hostname (req_headers request) (req_url request)
    = inr hostname →
  let url := req_url request in
  let path := normalize (URL.pathname url) in
  let condition :=
    routeMap this !! path = None
    ∧ routeMap this !! (hostname +:+ path) = None
    ∧ (is_Some (routeMap this !! (path +:+ "/"))
       ∨ is_Some (routeMap this !! ((hostname +:+ path) +:+ "/")))
    ∧ Js.at_ path (-1) ≠ Some "/"%char in
  (∃ redirect, returns (shouldRedirect hostname path) this redirect
               ∧ (redirect = true ↔ condition))
  ∧ (condition →
     returns (getHandler normalize proto_hostname request) this
       (_redirectHandler (URL.set_pathname url (path +:+ "/")) MovedPermanently)
     ∧ returns (handler normalize proto_hostname request connInfo) this
         {| res_status := 301;
            res_headers :=
              [("location",
                URL.protocol url +:+ "//" +:+ URL.hostname url
                  +:+ (if String.eqb (URL.port url) "" then ""
                       else ":" +:+ URL.port url)
                  +:+ (path +:+ "/") +:+ URL.search url +:+ URL.hash url)];
            res_body := None |})
  ∧ (¬ condition →
     returns (getHandler normalize proto_hostname request) this
       (if negb (String.eqb path (URL.pathname url)) then
          _redirectHandler (URL.set_pathname url path) MovedPermanently
        else matched this hostname path)).
Proof.
  intros Hhost url path condition.
  pose proof (trailing_slash_redirect_true this hostname path) as Hiff.
  fold condition in Hiff.
  pose proof (getHandler_returns normalize proto_hostname request this hostname Hhost)
    as Hget.
  pose proof (handler_returns normalize proto_hostname request connInfo this
                hostname Hhost) as Hrun.
  unfold resolved in Hget, Hrun. fold url path in Hget, Hrun.
  split_and!.
  - eexists. split; [apply shouldRedirect_returns|exact Hiff].
  - intros Hcond. apply Hiff in Hcond. rewrite Hcond in Hget, Hrun.
    split; [exact Hget|exact Hrun].
  - intros Hcond.
    destruct (Spec.trailing_slash_redirect this hostname path);
      [exfalso; apply Hcond, Hiff; reflexivity|exact Hget].
Qed.

Lemma trailing_slash_redirect_exactly_witness :
  _getHostname (Whatwg.proto_hostname no_ipv6) []
    (req_url (request_for "/path" "?qs=test" "#hash" [])) = inr "0.0.0.0"
  ∧ returns
      (handler PathNormalizer.normalize (Whatwg.proto_hostname no_ipv6)
         (request_for "/path" "?qs=test" "#hash" []) mockConnInfo)
      (register_all [("/", respond_with "root"); ("/path/", respond_with "path")])
      {| res_status := 301;
         res_headers := [("location", "http://0.0.0.0:4505/path/?qs=test#hash")];
         res_body := None |}.
Proof.
  split; [reflexivity|].
  destruct (trailing_slash_redirect_exactly
              PathNormalizer.normalize (Whatwg.proto_hostname no_ipv6)
              (request_for "/path" "?qs=test" "#hash" []) mockConnInfo
              (register_all [("/", respond_with "root"); ("/path/", respond_with "path")])
              "0.0.0.0" eq_refl) as (_ & Hredirect & _).
  apply Hredirect.
  split_and!;
    [vm_compute; reflexivity..|left; vm_compute; eauto|vm_compute; discriminate].
Defined.

(** C6. A request whose normalised path is its raw path, which needs no
    redirection for a trailing slash, and whose path and hostname with path
    are neither a key of [#routeMap] nor have an entry of [#orderedRoutes]
    as a prefix, gets the 404 response: the body is the status text
    "Not Found", the headers are the content type of plain text in UTF-8
    and [nosniff]. *)
Theorem handler_not_found
    (normalize : string → string) (proto_hostname : string → option string)
    (request : Request) (connInfo : ConnInfo) (this : Router)
    (hostname : string) :
  _getHostname proto_hostname (req_headers request) (req_url request)
    = inr hostname →
  normalize (URL.pathname (req_url request)) = URL.pathname (req_url request) →
  returns (shouldRedirect hostname (URL.pathname (req_url request))) this false →
  routeMap this !! URL.pathname (req_url request) = None →
  routeMap this !! (hostname +:+ URL.pathname (req_url request)) = None →
  Forall
    (λ subtree,
       Js.startsWith (URL.pathname (req_url request)) subtree = false
       ∧ Js.startsWith (hostname +:+ URL.pathname (req_url request)) subtree
         = false)
    (orderedRoutes this) →
  returns (handler normalize proto_hostname request connInfo) this
    {| res_status := 404;
       res_headers :=
         [("content-type", "text/plain; charset=utf-8");
          ("x-content-type-options", "nosniff")];
       res_body := Some "Not Found" |}.
Proof.
  intros Hhost Hnorm Hredirect Hpath Hhostpath Hsub.
  pose proof (handler_returns normalize proto_hostname request connInfo this
                hostname Hhost) as Hrun.
  unfold resolved in Hrun. rewrite Hnorm in Hrun.
  rewrite (returns_inj _ _ _ _ (shouldRedirect_returns _ _ _) Hredirect) in Hrun.
  rewrite String.eqb_refl in Hrun. cbn [negb] in Hrun.
  assert (∀ candidate,
            routeMap this !! candidate = None →
            Forall (λ subtree, Js.startsWith candidate subtree = false)
              (orderedRoutes this) →
            Spec.phase this candidate = None) as Hphase.
  { intros candidate Hexact Hnone. unfold Spec.phase. rewrite Hexact.
    destruct (List.find _ _) as [subtree|] eqn:Hfind; [|done].
    apply find_some in Hfind as [Hin Hprefix].
    rewrite Forall_forall in Hnone.
    rewrite (Hnone subtree) in Hprefix; [discriminate|by apply list_elem_of_In]. }
  unfold matched in Hrun.
  rewrite (Hphase _ Hpath) in Hrun
    by (eapply Forall_impl; [exact Hsub|by intros ? [? _]]).
  rewrite (Hphase _ Hhostpath) in Hrun
    by (eapply Forall_impl; [exact Hsub|by intros ? [_ ?]]).
  destruct (hosts this); exact Hrun.
Qed.

Lemma handler_not_found_witness :
  returns
    (handler PathNormalizer.normalize (Whatwg.proto_hostname no_ipv6)
       (request_for "/path" "?qs=test" "#hash" []) mockConnInfo)
    (register_all [("0.0.0.1/", respond_with "host")])
    {| res_status := 404;
       res_headers :=
         [("content-type", "text/plain; charset=utf-8");
          ("x-content-type-options", "nosniff")];
       res_body := Some "Not Found" |}.
Proof.
  apply (handler_not_found
           PathNormalizer.normalize (Whatwg.proto_hostname no_ipv6)
           (request_for "/path" "?qs=test" "#hash" []) mockConnInfo
           (register_all [("0.0.0.1/", respond_with "host")]) "0.0.0.0");
    try reflexivity.
  repeat constructor.
Defined.

(** C7. A request that needs no redirection for a trailing slash and whose
    normalised path differs from its raw path gets a response with status
    301 whose location is the request URL with the normalised path in place
    of the path, the query string and the fragment kept. *)
Theorem handler_redirects_to_normalized
    (normalize : string → string) (proto_hostname : string → option string)
    (request : Request) (connInfo : ConnInfo) (this : Router)
    (hostname : string) :
  _getHostname proto_hostname (req_headers request) (req_url request)
    = inr hostname →
  returns
    (shouldRedirect hostname (normalize (URL.pathname (req_url request))))
    this false →
  normalize (URL.pathname (req_url request)) ≠ URL.pathname (req_url request) →
  let url := req_url request in
  returns (getHandler normalize proto_hostname request) this
    (_redirectHandler
       (URL.set_pathname url (normalize (URL.pathname url))) MovedPermanently)
  ∧ returns (handler normalize proto_hostname request connInfo) this
      {| res_status := 301;
         res_headers :=
           [("location",
             URL.protocol url +:+ "//" +:+ URL.hostname url
               +:+ (if String.eqb (URL.port url) "" then ""
                    else ":" +:+ URL.port url)
               +:+ normalize (URL.pathname url)
               +:+ URL.search url +:+ URL.hash url)];
         res_body := None |}.
Proof.
  intros Hhost Hredirect Hdiff url.
  pose proof (getHandler_returns normalize proto_hostname request this hostname Hhost)
    as Hget.
  pose proof (handler_returns normalize proto_hostname request connInfo this
                hostname Hhost) as Hrun.
  unfold resolved in Hget, Hrun.
  rewrite (returns_inj _ _ _ _ (shouldRedirect_returns _ _ _) Hredirect)
    in Hget, Hrun.
  apply String.eqb_neq in Hdiff. rewrite Hdiff in Hget, Hrun.
  split; [exact Hget|exact Hrun].
Qed.

Lemma handler_redirects_to_normalized_witness :
  PathNormalizer.normalize "/path//" = "/path/"
  ∧ returns
      (handler PathNormalizer.normalize (Whatwg.proto_hostname no_ipv6)
         (request_for "/path//" "?qs=test" "#hash" []) mockConnInfo)
      (register_all [("/path/", respond_with "path")])
      {| res_status := 301;
         res_headers := [("location", "http://0.0.0.0:4505/path/?qs=test#hash")];
         res_body := None |}.
Proof.
  split; [reflexivity|].
  apply (handler_redirects_to_normalized
           PathNormalizer.normalize (Whatwg.proto_hostname no_ipv6)
           (request_for "/path//" "?qs=test" "#hash" []) mockConnInfo
           (register_all [("/path/", respond_with "path")]) "0.0.0.0");
    [reflexivity|reflexivity|discriminate].
Defined.

Lemma matchHandler_phase_order_witness :
  Js.nth_char "0.0.0.1" 0 ≠ Some "/"%char
  ∧ returns (matchHandler "0.0.0.1" "/x")
      (register_all [("0.0.0.1/", respond_with "host"); ("/x", respond_with "exact")])
      (respond_with "host").
Proof.
  split; [discriminate|].
  apply (matchHandler_phase_order
           [("0.0.0.1/", respond_with "host"); ("/x", respond_with "exact")]
           "0.0.0.1" "/x"); discriminate.
Defined.

(** * Further properties of registration *)

Lemma register_all_snoc calls route handler :
  register_all (calls ++ [(route, handler)])
  = snd (handle route handler (register_all calls)).
Proof. unfold register_all. by rewrite foldl_app. Qed.

(** The empty string is never a key. *)
Lemma register_all_no_empty_route calls :
  routeMap (register_all calls) !! "" = None.
Proof.
  apply register_all_ind; [done|].
  intros this route handler IH Hne _. cbn.
  by rewrite lookup_insert_ne.
Qed.

(** X1. After any sequence of calls of [handle], [#hosts] is [true]
    exactly when some registered route does not start with a slash. *)
Theorem hosts_iff_host_route (calls : list (string * Handler)) :
  hosts (register_all calls) = true
  ↔ ∃ route,
      is_Some (routeMap (register_all calls) !! route)
      ∧ Js.nth_char route 0 ≠ Some "/"%char.
Proof.
  apply register_all_ind.
  - cbn. split; [discriminate|].
    intros (route & [h Hh] & _). by rewrite lookup_empty in Hh.
  - intros this route handler IH _ _. unfold registered. cbn.
    case_bool_decide as Hfirst.
    + split; [|done]. intros _. exists route.
      split; [|done]. rewrite lookup_insert_eq. eauto.
    + rewrite IH. split.
      * intros (key & [h Hh] & Hkey). exists key. split; [|done].
        rewrite lookup_insert. case_decide; eauto.
      * intros (key & [h Hh] & Hkey). exists key. split; [|done].
        rewrite lookup_insert in Hh. case_decide as Heq; [|eauto].
        subst key. destruct Hkey.
        by destruct (decide (Js.nth_char route 0 = Some "/"%char)).
Qed.

Lemma register_all_subtrees_exact calls :
  NoDup (orderedRoutes (register_all calls))
  ∧ ∀ route,
      route ∈ orderedRoutes (register_all calls)
      ↔ is_Some (routeMap (register_all calls) !! route)
        ∧ Js.at_ route (-1) = Some "/"%char.
Proof.
  apply register_all_ind.
  - split; [constructor|]. intros route. cbn. split.
    + intros Hin. by apply elem_of_nil in Hin.
    + intros [[h Hh] _]. by rewrite lookup_empty in Hh.
  - intros this route handler [Hnodup Hiff] _ Hfresh.
    unfold registered. cbn.
    assert (route ∉ orderedRoutes this) as Hnotin.
    { intros Hin. apply Hiff in Hin as [[h Hh] _]. congruence. }
    case_bool_decide as Hslash.
    + split.
      * rewrite splice_insert_perm. by constructor.
      * intros key. rewrite splice_insert_perm, elem_of_cons, Hiff.
        rewrite lookup_insert. case_decide as Heq.
        -- subst key. split; [eauto|by left].
        -- split; [intros [?|?]; [congruence|done]|by right].
    + split; [done|].
      intros key. rewrite Hiff, lookup_insert. case_decide as Heq; [|done].
      subst key. rewrite Hfresh. split.
      * by intros [[h Hh] _].
      * by intros [_ ?].
Qed.

(** X2. After any sequence of calls of [handle], [#orderedRoutes] holds
    every key of [#routeMap] that ends in a slash, these keys only, and
    each of them once: the insertion loses and repeats nothing, wherever
    it puts the route. *)
Theorem orderedRoutes_are_the_subtrees (calls : list (string * Handler)) :
  NoDup (orderedRoutes (register_all calls))
  ∧ ∀ route,
      route ∈ orderedRoutes (register_all calls)
      ↔ is_Some (routeMap (register_all calls) !! route)
        ∧ Js.at_ route (-1) = Some "/"%char.
Proof. apply register_all_subtrees_exact. Qed.

(** X3. A registered handler stays: after any further calls of [handle]
    the route still has the handler it was registered with, and a call
    that registers the route again throws and changes nothing. *)
Theorem registered_handler_stays
    (calls more : list (string * Handler)) (route : string) (h h' : Handler) :
  routeMap (register_all calls) !! route = Some h →
  routeMap (register_all (calls ++ more)) !! route = Some h
  ∧ handle route h' (register_all (calls ++ more))
    = (inl (Http ("Route " +:+ route +:+ " already registered")),
       register_all (calls ++ more)).
Proof.
  intros Hroute.
  assert (routeMap (register_all (calls ++ more)) !! route = Some h) as Hstays.
  { induction more as [|[route' handler'] more IH] using rev_ind.
    - by rewrite app_nil_r.
    - rewrite app_assoc, register_all_snoc.
      destruct (handle_state route' handler' (register_all (calls ++ more)))
        as [->|(_ & Hfresh & ->)]; [done|].
      cbn. rewrite lookup_insert_ne; [done|]. congruence. }
  split; [exact Hstays|].
  rewrite handle_run.
  destruct (String.eqb_spec route "") as [->|_].
  { by rewrite register_all_no_empty_route in Hstays. }
  unfold Js.has. rewrite Hstays. by rewrite bool_decide_eq_true_2.
Qed.

Lemma registered_handler_stays_witness :
  routeMap
    (register_all
       [("/test/route", respond_with "first"); ("/other/", respond_with "other")])
  !! "/test/route" = Some (respond_with "first")
  ∧ fst (handle "/test/route" (respond_with "second")
           (register_all
              [("/test/route", respond_with "first");
               ("/other/", respond_with "other")]))
    = inl (Http "Route /test/route already registered").
Proof.
  destruct (registered_handler_stays
              [("/test/route", respond_with "first")]
              [("/other/", respond_with "other")]
              "/test/route" (respond_with "first") (respond_with "second")
              eq_refl) as [Hstays Hthrows].
  split; [exact Hstays|].
  change ([("/test/route", respond_with "first"); ("/other/", respond_with "other")])
    with ([("/test/route", respond_with "first")]
          ++ [("/other/", respond_with "other")]).
  by rewrite Hthrows.
Defined.

(** On a list sorted by descending length, the insertion of [handle]
    gives a sorted list exactly when the last entry, the shortest one, is
    not longer than the route. *)
Lemma splice_descending_iff route l :
  Spec.descending l →
  Spec.descending
    (Js.splice_insert l (Js.findIndex (shorter_than route) l) route)
  ↔ ∀ x, last l = Some x → (String.length x ≤ String.length route)%nat.
Proof.
  intros Hsorted.
  destruct (last l) as [x|] eqn:Hlast.
  2:{ apply last_None in Hlast as ->. rewrite splice_into_empty.
      split; [done|]. intros _. repeat constructor. }
  apply last_Some in Hlast as [l' ->].
  pose proof Hsorted as Hparts. unfold Spec.descending in Hparts.
  apply StronglySorted_app in Hparts as (Hcross & Hl' & _).
  destruct (Forall_Exists_dec
              (λ y, shorter_than route y = false)
              (λ y, shorter_than route y = true)
              (λ y, match shorter_than route y as b
                      return {b = false} + {b = true} with
                    | true => right eq_refl
                    | false => left eq_refl
                    end)
              (l' ++ [x])) as [Hnone|Hsome].
  - rewrite (splice_without_shorter _ _ _ Hnone). unfold Spec.descending.
    split.
    + intros Hnew y [= <-].
      apply StronglySorted_app_1_r, StronglySorted_cons in Hnew as [Hx _].
      by apply Forall_inv in Hx.
    + intros Hx. specialize (Hx x eq_refl).
      apply StronglySorted_app_2; [|done|by repeat constructor].
      intros y z Hy Hz. apply elem_of_cons in Hz as [->|Hz].
      * apply Forall_app in Hnone as [Hnone _].
        rewrite Forall_forall in Hnone. specialize (Hnone y Hy).
        unfold shorter_than in Hnone. by apply Nat.ltb_ge in Hnone.
      * by apply Hcross.
  - split; [|intros _; apply splice_descending; [done|by right]].
    intros _ y [= <-].
    apply Exists_exists in Hsome as (y & Hy & Hshorter).
    unfold shorter_than in Hshorter. apply Nat.ltb_lt in Hshorter.
    apply elem_of_app in Hy as [Hy|Hy].
    + specialize (Hcross y x Hy). cbv beta in Hcross.
      assert (x ∈ [x]) as Hx by apply list_elem_of_singleton, eq_refl.
      specialize (Hcross Hx). lia.
    + apply list_elem_of_singleton in Hy as ->. lia.
Qed.

(** X4. When [#orderedRoutes] is sorted by descending length, a call of
    [handle] that registers a subtree leaves it sorted exactly when the
    route is at least as long as the last entry of the list (or the list
    is empty): a route shorter than every entry goes before the last
    one. *)
Theorem handle_keeps_order_iff
    (route : string) (handler : Handler) (this : Router) :
  Spec.descending (orderedRoutes this) →
  Js.at_ route (-1) = Some "/"%char →
  fst (handle route handler this) = inr () →
  Spec.descending (orderedRoutes (snd (handle route handler this)))
  ↔ ∀ x, last (orderedRoutes this) = Some x →
         (String.length x ≤ String.length route)%nat.
Proof.
  intros Hsorted Hslash Hok. rewrite handle_run in *.
  destruct (String.eqb route ""); [discriminate|].
  destruct (Js.has (routeMap this) route); [discriminate|].
  unfold registered. cbn [snd orderedRoutes].
  rewrite bool_decide_eq_true_2 by done.
  by apply splice_descending_iff.
Qed.

Lemma handle_keeps_order_iff_witness :
  Spec.descending
    (orderedRoutes
       (snd (handle "/a/b/c/" (respond_with "abc")
               (register_all [("/a/b/", respond_with "ab")])))).
Proof.
  apply (handle_keeps_order_iff "/a/b/c/" (respond_with "abc")
           (register_all [("/a/b/", respond_with "ab")])).
  - repeat constructor.
  - reflexivity.
  - reflexivity.
  - intros x Hlast. vm_compute in Hlast. injection Hlast as <-.
    vm_compute. lia.
Defined.

(** The entries of [#orderedRoutes] are routes of calls that register a
    subtree. *)
Lemma orderedRoutes_from_calls calls :
  Forall (λ subtree, subtree ∈ (subtree_calls calls).*1)
    (orderedRoutes (register_all calls)).
Proof.
  induction calls as [|[route handler] calls IH] using rev_ind;
    [by constructor|].
  rewrite register_all_snoc. unfold subtree_calls in *.
  rewrite List.filter_app, fmap_app.
  assert (Forall
            (λ subtree,
               subtree ∈
                 (List.filter
                    (λ call, bool_decide (Js.at_ call.1 (-1) = Some "/"%char))
                    calls).*1
                 ++ (List.filter
                       (λ call, bool_decide (Js.at_ call.1 (-1) = Some "/"%char))
                       [(route, handler)]).*1)
            (orderedRoutes (register_all calls))) as IH'.
  { eapply Forall_impl; [exact IH|]. intros subtree Hin.
    apply elem_of_app. by left. }
  destruct (handle_state route handler (register_all calls))
    as [->|(_ & _ & ->)]; [exact IH'|].
  unfold registered. cbn [orderedRoutes].
  case_bool_decide as Hslash; [|exact IH'].
  rewrite splice_insert_perm. constructor; [|exact IH'].
  apply elem_of_app. right. cbn [List.filter fst].
  rewrite bool_decide_eq_true_2 by done. apply list_elem_of_singleton, eq_refl.
Qed.

(** X5. When the subtrees are registered in an order in which none is
    shorter than one registered before it, as the tests do,
    [#orderedRoutes] is sorted by descending length, and the scan of
    [#match] returns the handler of the longest registered subtree that is
    a prefix of the route. *)
Theorem ascending_registration_longest_prefix
    (calls : list (string * Handler)) :
  StronglySorted
    (λ a b, (String.length a.1 ≤ String.length b.1)%nat)
    (subtree_calls calls) →
  let this := register_all calls in
  Spec.descending (orderedRoutes this)
  ∧ ∀ route,
      returns (match_scan route (orderedRoutes this)) this
        (Spec.longest_prefix (orderedRoutes this) route
           ≫= λ subtree, routeMap this !! subtree).
Proof.
  intros Hcalls this.
  assert (Spec.descending (orderedRoutes this)) as Hsorted.
  { unfold this. clear this.
    induction calls as [|[route handler] calls IH] using rev_ind;
      [constructor|].
    unfold subtree_calls in Hcalls. rewrite List.filter_app in Hcalls.
    apply StronglySorted_app in Hcalls as (Hcross & Hbefore & _).
    specialize (IH Hbefore). rewrite register_all_snoc.
    destruct (handle_state route handler (register_all calls))
      as [->|(_ & _ & ->)]; [exact IH|].
    unfold registered. cbn [orderedRoutes].
    cbn [List.filter fst] in Hcross.
    case_bool_decide as Hslash; [|exact IH].
    apply splice_descending_iff; [exact IH|].
    intros x Hlast.
    assert (x ∈ orderedRoutes (register_all calls)) as Hin.
    { apply last_Some in Hlast as [l' ->]. apply elem_of_app. right.
      by apply list_elem_of_singleton. }
    pose proof (orderedRoutes_from_calls calls) as Hfrom.
    rewrite Forall_forall in Hfrom.
    apply Hfrom, list_elem_of_fmap in Hin as (call & -> & Hcall).
    apply (Hcross call (route, handler)); [exact Hcall|].
    by apply list_elem_of_singleton. }
  split; [exact Hsorted|].
  intros route. rewrite <- (find_longest_prefix _ _ Hsorted).
  apply match_scan_returns.
Qed.

Lemma ascending_registration_longest_prefix_witness :
  Spec.descending
    (orderedRoutes
       (register_all
          [("/", respond_with "root"); ("/path/", respond_with "path");
           ("/path/longest/", respond_with "longest");
           ("/path/notrootedsubtree", respond_with "exact")])).
Proof.
  apply (ascending_registration_longest_prefix
           [("/", respond_with "root"); ("/path/", respond_with "path");
            ("/path/longest/", respond_with "longest");
            ("/path/notrootedsubtree", respond_with "exact")]).
  cbn. repeat constructor; cbn; lia.
Defined.

(** * Further properties of dispatch *)

Lemma string_append_assoc (s1 s2 s3 : string) :
  (s1 +:+ s2) +:+ s3 = s1 +:+ (s2 +:+ s3).
Proof.
  induction s1 as [|c s1 IH]; [reflexivity|].
  change (String c ((s1 +:+ s2) +:+ s3) = String c (s1 +:+ (s2 +:+ s3))).
  by rewrite IH.
Qed.

Lemma at_last_append_slash (path : string) :
  Js.at_ (path +:+ "/") (-1) = Some "/"%char.
Proof.
  assert (∀ s, String.get (String.length s) (s +:+ "/") = Some "/"%char) as Hget.
  { induction s as [|c s IH]; [reflexivity|exact IH]. }
  assert (∀ s, String.length (s +:+ "/") = S (String.length s)) as Hlen.
  { induction s as [|c s IH]; [reflexivity|].
    change (S (String.length (s +:+ "/")) = S (S (String.length s))).
    by rewrite IH. }
  unfold Js.at_. rewrite Hlen. cbn [Z.leb Z.compare].
  change (0 <=? -1) with false. cbv iota.
  destruct (Z.ltb_spec (Z.of_nat (S (String.length path)) + -1) 0); [lia|].
  destruct (Z.leb_spec (Z.of_nat (S (String.length path)))
              (Z.of_nat (S (String.length path)) + -1)); [lia|].
  cbn [orb].
  replace (Z.to_nat (Z.of_nat (S (String.length path)) + -1))
    with (String.length path) by lia.
  apply Hget.
Qed.

(** What a phase finds is registered for the candidate itself, or for a
    subtree that is a prefix of it. *)
Lemma phase_sound this candidate h :
  subtrees_registered this →
  Spec.phase this candidate = Some h →
  ∃ route,
    routeMap this !! route = Some h
    ∧ (route = candidate
       ∨ (Js.at_ route (-1) = Some "/"%char
          ∧ Js.startsWith candidate route = true)).
Proof.
  intros Hsub. unfold Spec.phase.
  destruct (routeMap this !! candidate) as [h'|] eqn:Hexact.
  { intros [= <-]. exists candidate. by split; [|left]. }
  destruct (List.find _ _) as [subtree|] eqn:Hfind; cbn; [|discriminate].
  intros Hh. apply find_some in Hfind as [Hin Hprefix].
  unfold subtrees_registered in Hsub. rewrite Forall_forall in Hsub.
  destruct (Hsub subtree) as [_ Hslash]; [by apply list_elem_of_In|].
  exists subtree. split; [done|]. by right.
Qed.

(** X6. On a router built by calls of [handle], [#matchHandler] returns
    the "Not Found" handler or a handler registered for a route that is
    the candidate itself or a subtree (a route that ends in a slash) that
    is a prefix of it, the candidate being the path or, when [#hosts] is
    set, the hostname followed by the path. A route that does not end in
    a slash serves no longer path, and no route serves a request that it
    is not a prefix of. *)
Theorem matchHandler_sound
    (calls : list (string * Handler)) (host path : string) :
  let this := register_all calls in
  ∃ h,
    returns (matchHandler host path) this h
    ∧ (h = _notFoundHandler
       ∨ ∃ candidate route,
           (candidate = path ∨ (hosts this = true ∧ candidate = host +:+ path))
           ∧ routeMap this !! route = Some h
           ∧ (route = candidate
              ∨ (Js.at_ route (-1) = Some "/"%char
                 ∧ Js.startsWith candidate route = true))).
Proof.
  intros this. exists (matched this host path).
  split; [apply matchHandler_returns|].
  pose proof (register_all_subtrees_registered calls) as Hsub. fold this in Hsub.
  unfold matched.
  destruct (if hosts this then _ else _) as [h|] eqn:Hhost.
  - destruct (hosts this) eqn:Hhosts; [|discriminate].
    destruct (phase_sound _ _ _ Hsub Hhost) as (route & Hroute & Hprefix).
    right. exists (host +:+ path), route. split_and!; [by right|done..].
  - destruct (Spec.phase this path) as [h|] eqn:Hpath; cbn; [|by left].
    destruct (phase_sound _ _ _ Hsub Hpath) as (route & Hroute & Hprefix).
    right. exists path, route. split_and!; [by left|done..].
Qed.

(** X7. On a router built by calls of [handle] on which the route [/] is
    registered, [#matchHandler] returns a registered handler for every
    path that starts with a slash, and never the "Not Found" handler
    of its own. *)
Theorem root_route_catches_all
    (calls : list (string * Handler)) (host path : string) :
  is_Some (routeMap (register_all calls) !! "/") →
  Js.nth_char path 0 = Some "/"%char →
  ∃ route h,
    routeMap (register_all calls) !! route = Some h
    ∧ returns (matchHandler host path) (register_all calls) h.
Proof.
  intros Hroot Hpath. set (this := register_all calls) in *.
  assert (∃ h, Spec.phase this path = Some h) as [h Hphase].
  { unfold Spec.phase.
    destruct (routeMap this !! path) as [h|]; [eauto|].
    assert ("/" ∈ orderedRoutes this) as Hin.
    { apply (proj2 (register_all_subtrees_exact calls)). by split. }
    assert (Js.startsWith path "/" = true) as Hprefix.
    { unfold Js.startsWith. destruct path as [|c path]; [discriminate|].
      cbn in *. injection Hpath as ->. by destruct path. }
    destruct (List.find (Js.startsWith path) (orderedRoutes this))
      as [first|] eqn:Hfind.
    - apply find_some in Hfind as [Hfirst _].
      pose proof (register_all_subtrees_registered calls) as Hsub.
      unfold subtrees_registered in Hsub. rewrite Forall_forall in Hsub.
      destruct (Hsub first) as [[h Hh] _]; [by apply list_elem_of_In|].
      cbn. eauto.
    - apply list_elem_of_In in Hin.
      pose proof (find_none _ _ Hfind _ Hin). congruence. }
  pose proof (matchHandler_returns host path this) as Hrun.
  unfold matched in Hrun. rewrite Hphase in Hrun. cbn [default] in Hrun.
  destruct (if hosts this then _ else _) as [h'|] eqn:Hhost.
  - destruct (hosts this); [|discriminate].
    apply phase_registered in Hhost as [route Hroute]. eauto.
  - apply phase_registered in Hphase as [route Hroute]. eauto.
Qed.

Lemma root_route_catches_all_witness :
  ∃ route h,
    routeMap (register_all [("/", respond_with "root")]) !! route = Some h
    ∧ returns (matchHandler "0.0.0.1" "/path/")
        (register_all [("/", respond_with "root")]) h.
Proof.
  apply (root_route_catches_all [("/", respond_with "root")] "0.0.0.1" "/path/").
  - vm_compute. eauto.
  - reflexivity.
Defined.

(** Without a host-qualified route, a key that starts with a hostname is
    no key, unless the hostname is empty. *)
Lemma hostless_has calls host key :
  hosts (register_all calls) = false →
  Js.nth_char host 0 ≠ Some "/"%char →
  Js.has (routeMap (register_all calls)) (host +:+ key)
  = if decide (host = "") then Js.has (routeMap (register_all calls)) key
    else false.
Proof.
  intros Hhosts Hhost. case_decide as Hempty; [by subst host|].
  unfold Js.has. apply bool_decide_eq_false. intros Hkey.
  apply Hhost. rewrite <- (nth_char_append host key Hempty).
  by apply (register_all_hostless_keys calls).
Qed.

(** X8. The target of the redirection that appends a slash is served: on
    a router built by calls of [handle], when [#shouldRedirect] holds for a
    path, a request for that path with the slash appended (a path that is
    normalised) is not redirected again and gets a registered handler. *)
Theorem redirect_target_is_served
    (normalize : string → string) (proto_hostname : string → option string)
    (calls : list (string * Handler)) (request : Request)
    (hostname path : string) :
  _getHostname proto_hostname (req_headers request) (req_url request)
    = inr hostname →
  Js.nth_char hostname 0 ≠ Some "/"%char →
  returns (shouldRedirect hostname path) (register_all calls) true →
  URL.pathname (req_url request) = path +:+ "/" →
  normalize (path +:+ "/") = path +:+ "/" →
  returns (shouldRedirect hostname (path +:+ "/")) (register_all calls) false
  ∧ ∃ route h,
      routeMap (register_all calls) !! route = Some h
      ∧ returns (getHandler normalize proto_hostname request)
          (register_all calls) h.
Proof.
  intros Hhost Hfirst Hredirect Hpathname Hnormal.
  set (this := register_all calls) in *.
  pose proof (returns_inj _ _ _ _ (shouldRedirect_returns hostname path this)
                Hredirect) as Hcond.
  apply trailing_slash_redirect_true in Hcond as (_ & _ & Hkey & _).
  rewrite string_append_assoc in Hkey.
  assert (Spec.trailing_slash_redirect this hostname (path +:+ "/") = false)
    as Hagain.
  { unfold Spec.trailing_slash_redirect, Js.has.
    destruct Hkey as [Hkey|Hkey].
    - by rewrite (bool_decide_eq_true_2 _ Hkey).
    - rewrite (bool_decide_eq_true_2 _ Hkey). cbn. by rewrite andb_false_r. }
  split.
  { pose proof (shouldRedirect_returns hostname (path +:+ "/") this) as Hrun.
    by rewrite Hagain in Hrun. }
  assert (∃ h, Spec.phase this (path +:+ "/") = Some h
               ∨ (hosts this = true
                  ∧ Spec.phase this (hostname +:+ path +:+ "/") = Some h))
    as [h Hphase].
  { destruct Hkey as [[h Hh]|[h Hh]].
    - exists h. left. unfold Spec.phase. by rewrite Hh.
    - destruct (hosts this) eqn:Hhosts.
      + exists h. right. split; [done|]. unfold Spec.phase. by rewrite Hh.
      + pose proof (hostless_has calls hostname (path +:+ "/") Hhosts Hfirst)
          as Hhas.
        fold this in Hhas.
        assert (Js.has (routeMap this) (hostname +:+ path +:+ "/") = true)
          as Htrue by (apply bool_decide_eq_true_2; eauto).
        rewrite Htrue in Hhas.
        case_decide as Hempty; [|discriminate]. subst hostname.
        exists h. left. unfold Spec.phase.
        change ("" +:+ path +:+ "/") with (path +:+ "/") in Hh.
        by rewrite Hh. }
  pose proof (getHandler_returns normalize proto_hostname request this hostname
                Hhost) as Hrun.
  unfold resolved in Hrun. rewrite Hpathname, Hnormal, Hagain in Hrun.
  rewrite String.eqb_refl in Hrun. cbn [negb] in Hrun.
  unfold matched in Hrun.
  destruct (if hosts this then _ else _) as [h'|] eqn:Hhostphase.
  - destruct (hosts this); [|discriminate].
    apply phase_registered in Hhostphase as [route Hroute]. eauto.
  - destruct Hphase as [Hphase|[Hhosts Hphase]].
    + rewrite Hphase in Hrun. cbn [default] in Hrun.
      apply phase_registered in Hphase as [route Hroute]. eauto.
    + rewrite Hhosts in Hhostphase. congruence.
Qed.

Lemma redirect_target_is_served_witness :
  ∃ route h,
    routeMap
      (register_all [("/", respond_with "root"); ("/path/", respond_with "path")])
    !! route = Some h
    ∧ returns
        (getHandler PathNormalizer.normalize (Whatwg.proto_hostname no_ipv6)
           (request_for "/path/" "?qs=test" "#hash" []))
        (register_all [("/", respond_with "root"); ("/path/", respond_with "path")])
        h.
Proof.
  apply (redirect_target_is_served
           PathNormalizer.normalize (Whatwg.proto_hostname no_ipv6)
           [("/", respond_with "root"); ("/path/", respond_with "path")]
           (request_for "/path/" "?qs=test" "#hash" []) "0.0.0.0" "/path");
    [reflexivity|discriminate|reflexivity..].
Defined.

(** X9. On a router built by calls of [handle] with no host-qualified
    route ([#hosts] is not set), the hostname of the request has no part
    in the routing: [#shouldRedirect] and [#matchHandler] return the same
    for any two hostnames. *)
Theorem hostname_irrelevant_without_host_routes
    (calls : list (string * Handler)) (host1 host2 path : string) :
  hosts (register_all calls) = false →
  Js.nth_char host1 0 ≠ Some "/"%char →
  Js.nth_char host2 0 ≠ Some "/"%char →
  ∃ redirect h,
    returns (shouldRedirect host1 path) (register_all calls) redirect
    ∧ returns (shouldRedirect host2 path) (register_all calls) redirect
    ∧ returns (matchHandler host1 path) (register_all calls) h
    ∧ returns (matchHandler host2 path) (register_all calls) h.
Proof.
  intros Hhosts Hfirst1 Hfirst2.
  assert (∀ host,
            Js.nth_char host 0 ≠ Some "/"%char →
            Spec.trailing_slash_redirect (register_all calls) host path
            = Spec.trailing_slash_redirect (register_all calls) "" path)
    as Hsame.
  { intros host Hfirst. unfold Spec.trailing_slash_redirect.
    rewrite !string_append_assoc.
    rewrite !(hostless_has calls host _ Hhosts Hfirst).
    change ("" +:+ path) with path.
    change ("" +:+ path +:+ "/") with (path +:+ "/").
    case_decide; [done|].
    destruct (Js.has _ path), (Js.has _ (path +:+ "/")); done. }
  exists (Spec.trailing_slash_redirect (register_all calls) "" path),
    (matched (register_all calls) host1 path).
  split_and!.
  - rewrite <- (Hsame host1 Hfirst1). apply shouldRedirect_returns.
  - rewrite <- (Hsame host2 Hfirst2). apply shouldRedirect_returns.
  - apply matchHandler_returns.
  - replace (matched (register_all calls) host1 path)
      with (matched (register_all calls) host2 path)
      by (unfold matched; by rewrite Hhosts).
    apply matchHandler_returns.
Qed.

Lemma hostname_irrelevant_without_host_routes_witness :
  ∃ redirect h,
    returns (shouldRedirect "0.0.0.0" "/path")
      (register_all [("/path/", respond_with "path")]) redirect
    ∧ returns (shouldRedirect "example.com" "/path")
        (register_all [("/path/", respond_with "path")]) redirect
    ∧ returns (matchHandler "0.0.0.0" "/path")
        (register_all [("/path/", respond_with "path")]) h
    ∧ returns (matchHandler "example.com" "/path")
        (register_all [("/path/", respond_with "path")]) h.
Proof.
  apply (hostname_irrelevant_without_host_routes
           [("/path/", respond_with "path")] "0.0.0.0" "example.com" "/path");
    [reflexivity|discriminate|discriminate].
Defined.

(** X10. Routes of a hostname take precedence: on a router built by calls
    of [handle], a request whose hostname followed by its path (a path
    that is normalised) is a registered route gets the handler of that
    route, whatever else is registered. *)
Theorem host_route_is_served
    (normalize : string → string) (proto_hostname : string → option string)
    (calls : list (string * Handler)) (request : Request) (connInfo : ConnInfo)
    (hostname : string) (h : Handler) :
  _getHostname proto_hostname (req_headers request) (req_url request)
    = inr hostname →
  Js.nth_char hostname 0 ≠ Some "/"%char →
  normalize (URL.pathname (req_url request)) = URL.pathname (req_url request) →
  routeMap (register_all calls) !! (hostname +:+ URL.pathname (req_url request))
    = Some h →
  returns (handler normalize proto_hostname request connInfo)
    (register_all calls) (h request connInfo).
Proof.
  intros Hhost Hfirst Hnormal Hroute. set (this := register_all calls) in *.
  pose proof (handler_returns normalize proto_hostname request connInfo this
                hostname Hhost) as Hrun.
  unfold resolved in Hrun. rewrite Hnormal in Hrun.
  replace (Spec.trailing_slash_redirect this hostname
             (URL.pathname (req_url request))) with false in Hrun.
  2:{ unfold Spec.trailing_slash_redirect, Js.has.
      rewrite (bool_decide_eq_true_2
                 (is_Some (routeMap this
                           !! (hostname +:+ URL.pathname (req_url request))))) by eauto.
      cbn. by rewrite andb_false_r. }
  rewrite String.eqb_refl in Hrun. cbn [negb] in Hrun.
  unfold matched in Hrun.
  assert (Spec.phase this (hostname +:+ URL.pathname (req_url request)) = Some h)
    as Hphase by (unfold Spec.phase; by rewrite Hroute).
  destruct (hosts this) eqn:Hhosts.
  - by rewrite Hphase in Hrun.
  - pose proof (hostless_has calls hostname (URL.pathname (req_url request))
                  Hhosts Hfirst) as Hhas.
    fold this in Hhas.
    assert (Js.has (routeMap this)
              (hostname +:+ URL.pathname (req_url request)) = true)
      as Htrue by (apply bool_decide_eq_true_2; eauto).
    rewrite Htrue in Hhas. case_decide as Hempty; [|discriminate].
    subst hostname.
    change ("" +:+ URL.pathname (req_url request))
      with (URL.pathname (req_url request)) in Hphase.
    by rewrite Hphase in Hrun.
Qed.

Lemma host_route_is_served_witness :
  returns
    (handler PathNormalizer.normalize (Whatwg.proto_hostname no_ipv6)
       (request_for "/path" "?qs=test" "#hash" [("host", "0.0.0.1")])
       mockConnInfo)
    (register_all
       [("0.0.0.1/path", respond_with "host"); ("/path", respond_with "any")])
    {| res_status := 200; res_headers := []; res_body := Some "host" |}.
Proof.
  apply (host_route_is_served
           PathNormalizer.normalize (Whatwg.proto_hostname no_ipv6)
           [("0.0.0.1/path", respond_with "host"); ("/path", respond_with "any")]
           (request_for "/path" "?qs=test" "#hash" [("host", "0.0.0.1")])
           mockConnInfo "0.0.0.1" (respond_with "host"));
    [reflexivity|discriminate|reflexivity|reflexivity].
Defined.

(** X11. A request whose path (a path that is normalised) is a registered
    route gets the handler of that route, and no redirection, unless the
    host-qualified phase finds a handler first: it does not on a router
    without host-qualified routes, nor when [#match] finds nothing for the
    hostname followed by the path. *)
Theorem path_route_is_served
    (normalize : string → string) (proto_hostname : string → option string)
    (request : Request) (connInfo : ConnInfo) (this : Router)
    (hostname : string) (h : Handler) :
  _getHostname proto_hostname (req_headers request) (req_url request)
    = inr hostname →
  normalize (URL.pathname (req_url request)) = URL.pathname (req_url request) →
  routeMap this !! URL.pathname (req_url request) = Some h →
  hosts this = false
  ∨ returns (match_ (hostname +:+ URL.pathname (req_url request))) this None →
  returns (handler normalize proto_hostname request connInfo) this
    (h request connInfo).
Proof.
  intros Hhost Hnormal Hroute Hnohost.
  pose proof (handler_returns normalize proto_hostname request connInfo this
                hostname Hhost) as Hrun.
  unfold resolved in Hrun. rewrite Hnormal in Hrun.
  replace (Spec.trailing_slash_redirect this hostname
             (URL.pathname (req_url request))) with false in Hrun.
  2:{ unfold Spec.trailing_slash_redirect, Js.has.
      by rewrite (bool_decide_eq_true_2
                    (is_Some (routeMap this !! URL.pathname (req_url request))))
        by eauto. }
  rewrite String.eqb_refl in Hrun. cbn [negb] in Hrun.
  unfold matched in Hrun.
  assert (Spec.phase this (URL.pathname (req_url request)) = Some h) as Hphase
    by (unfold Spec.phase; by rewrite Hroute).
  rewrite Hphase in Hrun. cbn [default] in Hrun.
  destruct Hnohost as [Hhosts|Hnone].
  - by rewrite Hhosts in Hrun.
  - rewrite (returns_inj _ _ _ _ (match_returns _ _) Hnone) in Hrun.
    by destruct (hosts this).
Qed.

Lemma path_route_is_served_witness :
  returns
    (handler PathNormalizer.normalize (Whatwg.proto_hostname no_ipv6)
       (request_for "/path" "?qs=test" "#hash" []) mockConnInfo)
    (register_all [("/path", respond_with "path")])
    {| res_status := 200; res_headers := []; res_body := Some "path" |}.
Proof.
  apply (path_route_is_served
           PathNormalizer.normalize (Whatwg.proto_hostname no_ipv6)
           (request_for "/path" "?qs=test" "#hash" []) mockConnInfo
           (register_all [("/path", respond_with "path")])
           "0.0.0.0" (respond_with "path"));
    [reflexivity|reflexivity|reflexivity|by left].
Defined.

(** * The example router *)

Lemma append_slash_inj (s t : string) : s +:+ "/" = t +:+ "/" → s = t.
Proof.
  revert t. induction s as [|c s IH]; intros [|d t] Heq.
  - done.
  - injection Heq as _ Heq. by destruct t.
  - injection Heq as _ Heq. by destruct s.
  - injection Heq as -> Heq. by rewrite (IH t Heq).
Qed.

Lemma simple_router_fields hello restricted :
  simple_router hello restricted
  = {| routeMap := <["/admin/" := restricted]> (<["/" := hello]> ∅);
       orderedRoutes := ["/admin/"; "/"];
       hosts := false |}.
Proof. vm_compute. reflexivity. Qed.

Lemma simple_router_has hello restricted key :
  Js.has (routeMap (simple_router hello restricted)) key
  = bool_decide (key = "/admin/" ∨ key = "/").
Proof.
  rewrite simple_router_fields. unfold Js.has. cbn [routeMap].
  apply bool_decide_ext.
  rewrite lookup_insert. case_decide as Hadmin; [subst; split; eauto|].
  rewrite lookup_insert. case_decide as Hroot; [subst; split; eauto|].
  rewrite lookup_empty. split; [by intros [? ?]|]. intros [?|?]; congruence.
Qed.

(** X12. The router of [testdata/simple_router.ts], with the route [/] and
    the subtree [/admin/]: a request for a normalised path gets a
    redirection to [/admin/] when the path is [/admin], the handler of
    [/admin/] when the path starts with [/admin/], and the handler of [/]
    in every other case; no request gets the 404 response. *)
Theorem simple_router_dispatch
    (normalize : string → string) (proto_hostname : string → option string)
    (hello restricted : Handler) (request : Request) (connInfo : ConnInfo)
    (hostname : string) :
  _getHostname proto_hostname (req_headers request) (req_url request)
    = inr hostname →
  Js.nth_char hostname 0 ≠ Some "/"%char →
  normalize (URL.pathname (req_url request)) = URL.pathname (req_url request) →
  Js.nth_char (URL.pathname (req_url request)) 0 = Some "/"%char →
  returns (handler normalize proto_hostname request connInfo)
    (simple_router hello restricted)
    (if String.eqb (URL.pathname (req_url request)) "/admin" then
       _redirectHandler (URL.set_pathname (req_url request) "/admin/")
         MovedPermanently request connInfo
     else if Js.startsWith (URL.pathname (req_url request)) "/admin/" then
       restricted request connInfo
     else hello request connInfo).
Proof.
  intros Hhost Hfirst Hnormal Hslash.
  set (path := URL.pathname (req_url request)) in *.
  pose proof (handler_returns normalize proto_hostname request connInfo
                (simple_router hello restricted) hostname Hhost) as Hrun.
  unfold resolved in Hrun. fold path in Hrun. rewrite Hnormal in Hrun.
  rewrite String.eqb_refl in Hrun. cbn [negb] in Hrun.
  assert (hosts (simple_router hello restricted) = false) as Hhosts
    by reflexivity.
  assert (∀ key,
            Js.has (routeMap (simple_router hello restricted)) (hostname +:+ key)
            = if decide (hostname = "") then
                Js.has (routeMap (simple_router hello restricted)) key
              else false) as Hhosted.
  { intros key. by apply (hostless_has [("/", hello); ("/admin/", restricted)]). }
  assert (Spec.trailing_slash_redirect (simple_router hello restricted)
            hostname path = String.eqb path "/admin") as Hredirect.
  { unfold Spec.trailing_slash_redirect.
    rewrite string_append_assoc, !Hhosted, !simple_router_has.
    destruct (String.eqb_spec path "/admin") as [->|Hne].
    - by case_decide.
    - assert (bool_decide (path +:+ "/" = "/admin/" ∨ path +:+ "/" = "/") = false)
        as ->.
      { apply bool_decide_eq_false. intros [Heq|Heq].
        - by apply (append_slash_inj path "/admin") in Heq.
        - apply (append_slash_inj path "") in Heq. subst path.
          rewrite Heq in Hslash. discriminate. }
      case_decide; cbn; by rewrite !andb_false_r. }
  rewrite Hredirect in Hrun.
  destruct (String.eqb_spec path "/admin") as [Heq|_];
    [rewrite Heq in Hrun; exact Hrun|].
  replace (matched (simple_router hello restricted) hostname path)
    with (if Js.startsWith path "/admin/" then restricted else hello) in Hrun.
  { by destruct (Js.startsWith path "/admin/"). }
  unfold matched, Spec.phase. rewrite simple_router_fields.
  cbn [hosts routeMap orderedRoutes List.find].
  assert (Js.startsWith path "/" = true) as Hroot.
  { unfold Js.startsWith. destruct path as [|c rest]; [discriminate|].
    cbn in Hslash. injection Hslash as ->. cbn. by destruct rest. }
  clear Hhosted Hredirect Hrun.
  rewrite lookup_insert. destruct (decide ("/admin/" = path)) as [Hadmin|Hadmin].
  { by rewrite <- Hadmin. }
  rewrite lookup_insert. destruct (decide ("/" = path)) as [Hone|Hone].
  { by rewrite <- Hone. }
  rewrite lookup_empty.
  destruct (Js.startsWith path "/admin/").
  - cbn. by rewrite lookup_insert_eq.
  - rewrite Hroot. cbn. rewrite lookup_insert_ne by done.
    by rewrite lookup_insert_eq.
Qed.

Lemma simple_router_dispatch_witness :
  returns
    (handler PathNormalizer.normalize (Whatwg.proto_hostname no_ipv6)
       (request_for "/admin/users" "" "" []) mockConnInfo)
    (simple_router (respond_with "Hello Deno!") (respond_with "Restricted!"))
    {| res_status := 200; res_headers := []; res_body := Some "Restricted!" |}.
Proof.
  apply (simple_router_dispatch
           PathNormalizer.normalize (Whatwg.proto_hostname no_ipv6)
           (respond_with "Hello Deno!") (respond_with "Restricted!")
           (request_for "/admin/users" "" "" []) mockConnInfo "0.0.0.0");
    [reflexivity|discriminate|reflexivity|reflexivity].
Defined.
